(** * diffxl: the workbook difference extractor of xlutils

    A shallow embedding of [diffxl/diffxl.py].  The script loads a base
    workbook and one or several target workbooks with openpyxl, walks the
    cells of every pair of equally named visible worksheets, and writes
    the cells whose compared texts differ to a new workbook.

    The embedding keeps the shape of the script: worksheets are records
    with a dictionary of cells, [Worksheet.cell] creates the cells it is
    asked for (as openpyxl does), and the loops of [main] pass the two
    worksheets and the list of differences along explicitly. *)

From Stdlib Require Import ZArith Ascii String DecimalString.
From stdpp Require Import base tactics option list list_numbers sorting gmap strings fin_maps.

Local Open Scope string_scope.
Local Open Scope Z_scope.


(** ** Cell values and their text *)

(** The values openpyxl hands out for a cell.  [VOther] stands for the
    remaining Python values (floats, dates, times), each identified by the
    text that [str] gives it. *)
Inductive Value :=
  | VNone
  | VStr (s : string)
  | VInt (n : Z)
  | VBool (b : bool)
  | VOther (text : string).

#[global] Instance Value_eq_dec : EqDecision Value.
Proof. solve_decision. Defined.

(** Python's [str] on a cell value. *)
Definition str (v : Value) : string :=
  match v with
  | VNone => "None"
  | VStr s => s
  | VInt n => NilZero.string_of_int (Z.to_int n)
  | VBool true => "True"
  | VBool false => "False"
  | VOther text => text
  end.

(** ** openpyxl.cell.cell: the type tags *)

Definition TYPE_STRING := "s".
Definition TYPE_FORMULA := "f".
Definition TYPE_NUMERIC := "n".
Definition TYPE_BOOL := "b".
Definition TYPE_NULL := "n".
Definition TYPE_ERROR := "e".
Definition TYPE_FORMULA_CACHE_STRING := "str".

Definition ERROR_CODES : list string :=
  ["#NULL!"; "#DIV/0!"; "#VALUE!"; "#REF!"; "#NAME?"; "#NUM!"; "#N/A"].

(** ** openpyxl.utils.cell: column letters *)

(** The loop of [_get_column_letter]: repeated [divmod] by 26 with a
    borrow on exact division; [letters] is collected last letter first.
    [fuel] bounds the number of iterations. *)
Fixpoint column_letter_loop (fuel : nat) (col_idx : Z) (letters : list ascii)
  : list ascii :=
  match fuel with
  | O => letters
  | S fuel' =>
      if bool_decide (0 < col_idx) then
        let q := col_idx / 26 in
        let remainder := col_idx mod 26 in
        let '(q, remainder) :=
          if bool_decide (remainder = 0) then (q - 1, 26) else (q, remainder) in
        column_letter_loop fuel' q (ascii_of_nat (Z.to_nat (remainder + 64)) :: letters)
      else letters
  end.

(** [get_column_letter]: "A" for 1, "Z" for 26, "AA" for 27.  openpyxl
    accepts the indices 1 to 18278 ("ZZZ") only, which is all a workbook
    file can hold; the index itself is fuel enough. *)
Definition get_column_letter (col_idx : Z) : string :=
  string_of_list_ascii (column_letter_loop (Z.to_nat col_idx) col_idx []).

(** ** Cells, ranges and worksheets *)

(** A cell object as [Worksheet.cell] returns it. *)
Record Cell := mkCell {
  row : Z;
  column : Z;
  value : Value;
  data_type : string
}.

#[global] Instance Cell_eq_dec : EqDecision Cell.
Proof. solve_decision. Defined.

Definition column_letter (c : Cell) : string := get_column_letter (column c).

(** [Cell.coordinate]: the column letter followed by the row number. *)
Definition coordinate_of (r c : Z) : string :=
  get_column_letter c +:+ NilZero.string_of_int (Z.to_int r).

Definition coordinate (c : Cell) : string := coordinate_of (row c) (column c).

(** A merged range, by its bounds. *)
Record CellRange := mkRange {
  min_col : Z;
  min_row : Z;
  max_col : Z;
  max_row : Z
}.

(** [cell.coordinate in merged_range]: the range built from the
    coordinate lies inside the bounds. *)
Definition range_contains (rng : CellRange) (c : Cell) : bool :=
  bool_decide (min_row rng ≤ row c ≤ max_row rng)
  && bool_decide (min_col rng ≤ column c ≤ max_col rng).

(** What [for merged_cell in merged_range] goes through.  Iterating a
    range does not yield its cells: [CellRange.__iter__] goes over the
    attributes the class of the range declares, and the class of the
    merged ranges of a worksheet declares none.  The iteration is empty,
    so the body of the loop, which reads [column_letter] and [row] of its
    element, is never entered. *)
Definition merged_range_items (rng : CellRange) : list (Z * Z) := [].

(** A row or column dimension; only the [hidden] flag is read. *)
Record Dimension := mkDimension { hidden : bool }.

#[global] Instance Dimension_inhabited : Inhabited Dimension :=
  populate (mkDimension false).

(** A worksheet.  [_cells] is keyed by (row, column) and holds the value
    and type tag of each cell; [merged_cells] lists the merged ranges in
    the order in which iterating [merged_cells.ranges] yields them (the
    library keeps them in a set); [column_dimensions] is keyed by column
    letter and [row_dimensions] by row number.  Reading a dimension that
    is missing gives one that is not hidden (openpyxl also stores that
    default under the key, which no later read can tell apart). *)
Record Worksheet := mkWorksheet {
  title : string;
  sheet_state : string;
  _cells : gmap (Z * Z) (Value * string);
  merged_cells : list CellRange;
  column_dimensions : gmap string Dimension;
  row_dimensions : gmap Z Dimension
}.

Definition set_cells (ws : Worksheet) (m : gmap (Z * Z) (Value * string)) : Worksheet :=
  mkWorksheet (title ws) (sheet_state ws) m (merged_cells ws)
    (column_dimensions ws) (row_dimensions ws).

(** [max] of a list of integers that is not empty, [dflt] otherwise. *)
Definition max_or (dflt : Z) (l : list Z) : Z :=
  match l with
  | [] => dflt
  | x :: l' => foldr Z.max x l'
  end.

(** [Worksheet.max_row] and [Worksheet.max_column]: the largest row and
    column among the keys of [_cells], 1 for a sheet without cells. *)
Definition ws_max_row (ws : Worksheet) : Z :=
  max_or 1 ((λ kv, kv.1.1) <$> map_to_list (_cells ws)).

Definition ws_max_column (ws : Worksheet) : Z :=
  max_or 1 ((λ kv, kv.1.2) <$> map_to_list (_cells ws)).

(** [Worksheet.cell(row, column)]: the cell stored under the key, or a
    new empty cell (value [None], type tag "n") which is added to the
    sheet.  The updated sheet is returned with the cell. *)
Definition cell (ws : Worksheet) (r c : Z) : Cell * Worksheet :=
  match _cells ws !! (r, c) with
  | Some (v, t) => (mkCell r c v t, ws)
  | None => (mkCell r c VNone "n", set_cells ws (<[(r, c) := (VNone, "n")]> (_cells ws)))
  end.

(** ** diffxl.py *)

(** [is_worksheet_hidden]. *)
Definition is_worksheet_hidden (worksheet : Worksheet) : bool :=
  bool_decide (sheet_state worksheet ∈ ["hidden"; "veryHidden"]).

(** The inner loop of [is_cell_hidden], over what iterating one range
    yields. *)
Fixpoint any_cell_hidden (worksheet : Worksheet) (merged : list (Z * Z)) : bool :=
  match merged with
  | [] => false
  | (r, c) :: rest =>
      let column := get_column_letter c in
      let row := r in
      if hidden (column_dimensions worksheet !!! column)
         || hidden (row_dimensions worksheet !!! row)
      then true
      else any_cell_hidden worksheet rest
  end.

(** The outer loop of [is_cell_hidden] over the merged ranges: the first
    range that contains the cell decides. *)
Fixpoint is_cell_hidden_in (worksheet : Worksheet) (ranges : list CellRange)
    (c : Cell) : bool :=
  match ranges with
  | [] => false
  | merged_range :: rest =>
      if range_contains merged_range c
      then any_cell_hidden worksheet (merged_range_items merged_range)
      else is_cell_hidden_in worksheet rest c
  end.

Definition is_cell_hidden (worksheet : Worksheet) (c : Cell) : bool :=
  is_cell_hidden_in worksheet (merged_cells worksheet) c.

(** One entry of [differences]. *)
Record Difference := mkDifference {
  worksheet_name : string;
  cell_address : string;
  value1 : string;
  value2 : string
}.

#[global] Instance Difference_eq_dec : EqDecision Difference.
Proof. solve_decision. Defined.

(** The text of a cell that takes part in the comparison (lines 125-138
    for the first sheet, 126-147 for the second): [str] of the value,
    replaced by the empty string for a hidden cell and for the four type
    tags. *)
Definition compared_text (worksheet : Worksheet) (c : Cell) : string :=
  let v := str (value c) in
  let v := if is_cell_hidden worksheet c then "" else v in
  let v :=
    if bool_decide (data_type c ∈
         [TYPE_NULL; TYPE_ERROR; TYPE_FORMULA; TYPE_FORMULA_CACHE_STRING])
    then "" else v in
  v.

(** The state of the loops of [main] over one pair of worksheets. *)
Record SheetState := mkSheetState {
  st_ws1 : Worksheet;
  st_ws2 : Worksheet;
  st_differences : list Difference
}.

(** The body of the loop over the columns (lines 123-156). *)
Definition compare_cell (r c : Z) (st : SheetState) : SheetState :=
  let '(cell1, worksheet1) := cell (st_ws1 st) r c in
  let '(cell2, worksheet2) := cell (st_ws2 st) r c in
  let v1 := compared_text worksheet1 cell1 in
  let v2 := compared_text worksheet2 cell2 in
  let differences :=
    if bool_decide (v1 ≠ v2)
    then (st_differences st ++ [mkDifference (title worksheet1) (coordinate cell1) v1 v2])%list
    else st_differences st in
  mkSheetState worksheet1 worksheet2 differences.

(** The two loops over the rows and columns (lines 117-156). *)
Definition compare_worksheets (st : SheetState) : SheetState :=
  let max_row := Z.max (ws_max_row (st_ws1 st)) (ws_max_row (st_ws2 st)) in
  let max_col := Z.max (ws_max_column (st_ws1 st)) (ws_max_column (st_ws2 st)) in
  foldl (λ st r, foldl (λ st c, compare_cell r c st) st (seqZ 1 max_col))
    st (seqZ 1 max_row).

(** A workbook is the list of its worksheets, in their declared order. *)
Abbreviation Workbook := (list Worksheet).

(** [Workbook.sheetnames]. *)
Definition sheetnames (wb : Workbook) : list string := title <$> wb.

(** [workbook[name]]: the first sheet with that title, with its position
    in the workbook (the sheet is an object of the workbook, and what
    [Worksheet.cell] adds to it stays in the workbook). *)
Definition get_sheet (wb : Workbook) (name : string) : option (nat * Worksheet) :=
  list_find (λ ws, title ws = name) wb.

(** The state of the loop of [main] over the sheet names. *)
Record BookState := mkBookState {
  bs_wb1 : Workbook;
  bs_wb2 : Workbook;
  bs_differences : list Difference
}.

(** The body of the loop over the sheet names (lines 100-156).  The last
    branch stands for the [KeyError] of [workbook[sheetname]]; it is not
    reached, see [get_sheet_is_Some]. *)
Definition compare_sheet (sheetname : string) (st : BookState) : BookState :=
  if bool_decide (sheetname ∉ sheetnames (bs_wb2 st)) then st
  else
    match get_sheet (bs_wb1 st) sheetname, get_sheet (bs_wb2 st) sheetname with
    | Some (i1, worksheet1), Some (i2, worksheet2) =>
        if is_worksheet_hidden worksheet1 then st
        else if is_worksheet_hidden worksheet2 then st
        else
          let s := compare_worksheets
                     (mkSheetState worksheet1 worksheet2 (bs_differences st)) in
          mkBookState (<[i1 := st_ws1 s]> (bs_wb1 st)) (<[i2 := st_ws2 s]> (bs_wb2 st))
            (st_differences s)
    | _, _ => st
    end.

(** The loop over [workbook1.sheetnames] for one target (lines 90-156),
    starting from an empty list of differences. *)
Definition compare_workbooks (workbook1 workbook2 : Workbook) : BookState :=
  foldl (λ st sheetname, compare_sheet sheetname st)
    (mkBookState workbook1 workbook2 []) (sheetnames workbook1).

(** *** Writing the differences (lines 161-184) *)

(** The first 32767 characters of a string: [value[:32767]]. *)
Definition truncated (s : string) : string :=
  String.substring 0 (Z.to_nat 32767) s.

(** The characters of [ILLEGAL_CHARACTERS_RE]: the control characters
    0 to 8, 11, 12 and 14 to 31. *)
Definition illegal_character (a : ascii) : bool :=
  let n := Z.of_nat (nat_of_ascii a) in
  bool_decide (n ≤ 8) || bool_decide (11 ≤ n ≤ 12) || bool_decide (14 ≤ n ≤ 31).

(** [Cell.check_string]: the string is cut to 32767 characters; [None]
    stands for the [IllegalCharacterError] that is raised when what is
    left holds an illegal character. *)
Definition check_string (s : string) : option string :=
  let value := truncated s in
  if existsb illegal_character (list_ascii_of_string value) then None
  else Some value.

(** What assigning a string to [Cell.value] stores when [check_string]
    returns: the string cut to 32767 characters, with the type tag
    openpyxl infers for it.  (The assignment that raises is accounted for
    in [save_differences].) *)
Definition bind_str (s : string) : Value * string :=
  let value := truncated s in
  (VStr value,
   if bool_decide (1 < Z.of_nat (String.length value)) && String.prefix "=" value
   then TYPE_FORMULA
   else if bool_decide (value ∈ ERROR_CODES) then TYPE_ERROR
   else TYPE_STRING).

(** [worksheet.cell(row, column, value)] and [worksheet["A1"] = value]
    for a string. *)
Definition set_value (ws : Worksheet) (r c : Z) (s : string) : Worksheet :=
  set_cells ws (<[(r, c) := bind_str s]> (_cells ws)).

(** The sheet of [Workbook()]. *)
Definition new_worksheet : Worksheet :=
  mkWorksheet "Sheet" "visible" ∅ [] ∅ ∅.

Definition set_title (ws : Worksheet) (t : string) : Worksheet :=
  mkWorksheet t (sheet_state ws) (_cells ws) (merged_cells ws)
    (column_dimensions ws) (row_dimensions ws).

(** The body of the loop over [enumerate(differences, 2)]. *)
Definition write_difference (ws : Worksheet) (entry : Z * Difference) : Worksheet :=
  let '(r, difference) := entry in
  let ws := set_value ws r 1 (worksheet_name difference) in
  let ws := set_value ws r 2 (cell_address difference) in
  let ws := set_value ws r 3 (value1 difference) in
  let ws := set_value ws r 4 (value2 difference) in
  ws.

(** [enumerate(l, start)]. *)
Definition enumerate {A} (l : list A) (start : Z) : list (Z * A) :=
  zip (seqZ start (Z.of_nat (length l))) l.

(** The worksheet that is written for a list of differences. *)
Definition diff_worksheet (stem1 stem2 : string) (differences : list Difference)
  : Worksheet :=
  let ws := set_title new_worksheet "Differences" in
  let ws := set_value ws 1 1 "Sheet" in
  let ws := set_value ws 1 2 "Cell" in
  let ws := set_value ws 1 3 (stem1 +:+ " Value") in
  let ws := set_value ws 1 4 (stem2 +:+ " Value") in
  foldl write_difference ws (enumerate differences 2).

(** The strings lines 169-179 assign to cells, in the order of the
    assignments. *)
Definition written_texts (stem1 stem2 : string) (differences : list Difference)
  : list string :=
  (["Sheet"; "Cell"; stem1 +:+ " Value"; stem2 +:+ " Value"]
   ++ (d ← differences; [worksheet_name d; cell_address d; value1 d; value2 d]))%list.

(** Lines 161-187: the workbook that is saved and the name it is saved
    under.  Nothing is saved for an empty list of differences, and
    nothing is saved when one of the assignments raises
    [IllegalCharacterError], which happens before [save] is reached. *)
Definition save_differences (stem1 stem2 : string) (differences : list Difference)
  : option (string * Workbook) :=
  match differences with
  | [] => None
  | _ :: _ =>
      if forallb (λ s, bool_decide (is_Some (check_string s)))
           (written_texts stem1 stem2 differences)
      then Some ("diff_" +:+ stem1 +:+ "_" +:+ stem2 +:+ ".xlsx",
                 [diff_worksheet stem1 stem2 differences])
      else None
  end.

(** *** The loop over the targets (lines 88-187) *)

(** A target: the stem of its path and the workbook [load_workbook]
    returns for it. *)
Record Target := mkTarget {
  target_stem : string;
  target_workbook : Workbook
}.

(** The state of [main]: the base workbook, which all targets share, the
    files saved so far, and the list [differences] of every target
    processed so far.  The model follows the loop bodies for every
    target; in the script an [IllegalCharacterError] of a write, like a
    failure to load a file, ends the run at that target. *)
Record MainState := mkMainState {
  ms_workbook1 : Workbook;
  ms_saved : list (string * Workbook);
  ms_differences : list (list Difference)
}.

Definition process_target (stem1 : string) (st : MainState) (target : Target)
  : MainState :=
  let bs := compare_workbooks (ms_workbook1 st) (target_workbook target) in
  let differences := bs_differences bs in
  mkMainState (bs_wb1 bs)
    (ms_saved st ++ option_list (save_differences stem1 (target_stem target) differences))%list
    (ms_differences st ++ [differences])%list.

Definition main (stem1 : string) (workbook1 : Workbook) (targets : list Target)
  : MainState :=
  foldl (process_target stem1) (mkMainState workbook1 [] []) targets.

(** ** What the loops compute, without the state *)

(** The stored value and type tag under a key, with the content of a new
    empty cell for a key that is missing. *)
Definition content (ws : Worksheet) (r c : Z) : Value * string :=
  default (VNone, "n") (_cells ws !! (r, c)).

(** The cell [Worksheet.cell] returns, without the update of the sheet. *)
Definition peek (ws : Worksheet) (r c : Z) : Cell :=
  mkCell r c (content ws r c).1 (content ws r c).2.

(** The difference the loop body appends at one coordinate, if any. *)
Definition diff_at (ws1 ws2 : Worksheet) (r c : Z) : option Difference :=
  let v1 := compared_text ws1 (peek ws1 r c) in
  let v2 := compared_text ws2 (peek ws2 r c) in
  if bool_decide (v1 ≠ v2)
  then Some (mkDifference (title ws1) (coordinate_of r c) v1 v2)
  else None.

(** [ws'] is [ws] with new empty cells added at coordinates from 1 on:
    what calls of [Worksheet.cell] do to a sheet. *)
Definition extends (ws ws' : Worksheet) : Prop :=
  ∃ m, ws' = set_cells ws m ∧
    ∀ r c, m !! (r, c) = _cells ws !! (r, c)
           ∨ (_cells ws !! (r, c) = None ∧ m !! (r, c) = Some (VNone, "n")
              ∧ 1 ≤ r ∧ 1 ≤ c).

(** The differences of one row, and of the whole grid, as lists. *)
Definition row_diffs (ws1 ws2 : Worksheet) (r : Z) (cols : list Z) : list Difference :=
  c ← cols; option_list (diff_at ws1 ws2 r c).

Definition grid_diffs (ws1 ws2 : Worksheet) (rows cols : list Z) : list Difference :=
  r ← rows; row_diffs ws1 ws2 r cols.

(** The invariant of the loops over one pair of sheets. *)
Definition sheets_extend (ws1 ws2 : Worksheet) (st : SheetState) : Prop :=
  extends ws1 (st_ws1 st) ∧ extends ws2 (st_ws2 st).

(** The differences of a pair of sheets: [diff_at] over the grid of the
    larger bounds, row by row. *)
Definition sheet_diffs (ws1 ws2 : Worksheet) : list Difference :=
  grid_diffs ws1 ws2
    (seqZ 1 (Z.max (ws_max_row ws1) (ws_max_row ws2)))
    (seqZ 1 (Z.max (ws_max_column ws1) (ws_max_column ws2))).

(** Every sheet of [wb'] is the sheet of [wb] at the same position with
    empty cells added. *)
Definition books_extend (wb wb' : Workbook) : Prop := Forall2 extends wb wb'.

(** The differences the loop body appends for one sheet name. *)
Definition name_diffs (wb1 wb2 : Workbook) (name : string) : list Difference :=
  if bool_decide (name ∉ sheetnames wb2) then []
  else
    match get_sheet wb1 name, get_sheet wb2 name with
    | Some (_, ws1), Some (_, ws2) =>
        if is_worksheet_hidden ws1 then []
        else if is_worksheet_hidden ws2 then []
        else sheet_diffs ws1 ws2
    | _, _ => []
    end.

Definition books_inv (wb1 wb2 : Workbook) (st : BookState) : Prop :=
  books_extend wb1 (bs_wb1 st) ∧ books_extend wb2 (bs_wb2 st).

(** The differences of a pair of workbooks, sheet name by sheet name in
    the order of the first workbook. *)
Definition book_diffs (wb1 wb2 : Workbook) : list Difference :=
  sheetnames wb1 ≫= name_diffs wb1 wb2.

(** ** The grid differ of the specification *)

(** Fetching a cell as the specification words it: beyond the populated
    bound of the sheet a default empty cell, inside it the stored cell or
    a default empty cell for a coordinate that is not populated. *)
Definition spec_fetch (sheet : Worksheet) (r c : Z) : Cell :=
  if bool_decide (ws_max_row sheet < r ∨ ws_max_column sheet < c)
  then mkCell r c VNone TYPE_NULL
  else
    match _cells sheet !! (r, c) with
    | Some (v, t) => mkCell r c v t
    | None => mkCell r c VNone TYPE_NULL
    end.

(** The algorithm of the specification's Grid Differ: rows 1..R and
    columns 1..C in row-major order, a record wherever the two compared
    texts are unequal. *)
Definition spec_grid_differ (sheet1 sheet2 : Worksheet) : list Difference :=
  let R := Z.max (ws_max_row sheet1) (ws_max_row sheet2) in
  let C := Z.max (ws_max_column sheet1) (ws_max_column sheet2) in
  r ← seqZ 1 R;
  c ← seqZ 1 C;
  let cell1 := spec_fetch sheet1 r c in
  let cell2 := spec_fetch sheet2 r c in
  let n1 := compared_text sheet1 cell1 in
  let n2 := compared_text sheet2 cell2 in
  if bool_decide (n1 = n2) then []
  else [mkDifference (title sheet1) (coordinate_of r c) n1 n2].

(** ** The sheet matcher of the specification *)

(** Whether the sheet a name stands for is hidden. *)
Definition hidden_in (wb : Workbook) (name : string) : bool :=
  match get_sheet wb name with
  | Some (_, ws) => is_worksheet_hidden ws
  | None => false
  end.

(** Eligibility as the specification words it: the name is present in
    both workbooks and the sheet is hidden in neither. *)
Definition spec_eligible (wb1 wb2 : Workbook) (name : string) : bool :=
  bool_decide (name ∈ sheetnames wb1) && bool_decide (name ∈ sheetnames wb2)
  && negb (hidden_in wb1 name) && negb (hidden_in wb2 name).

(** What the loops over the cells find for the pair of sheets of a name. *)
Definition pair_differences (wb1 wb2 : Workbook) (name : string) : list Difference :=
  match get_sheet wb1 name, get_sheet wb2 name with
  | Some (_, ws1), Some (_, ws2) =>
      st_differences (compare_worksheets (mkSheetState ws1 ws2 []))
  | _, _ => []
  end.

(** ** The order of the differences *)

(** The order of the coordinates: by row, then by column. *)
Definition lex_lt (a b : Z * Z) : Prop := a.1 < b.1 ∨ (a.1 = b.1 ∧ a.2 < b.2).

(** The coordinates at which the loops append a difference. *)
Definition diff_coords (ws1 ws2 : Worksheet) (rows cols : list Z) : list (Z * Z) :=
  r ← rows; c ← cols;
  match diff_at ws1 ws2 r c with Some _ => [(r, c)] | None => [] end.

(** A record and the coordinate it was found at. *)
Definition found_at (name : string) (d : Difference) (rc : Z * Z) : Prop :=
  worksheet_name d = name ∧ cell_address d = coordinate_of rc.1 rc.2.


(** ** Sample sheets *)

(** A number and a text as they are stored, and a visible sheet without
    merged ranges or hidden rows and columns made of a list of cells. *)
Definition num (n : Z) : Value * string := (VInt n, TYPE_NUMERIC).

Definition text (s : string) : Value * string := (VStr s, TYPE_STRING).

Definition sheet_of (t : string) (cells : list (Z * Z * (Value * string))) : Worksheet :=
  mkWorksheet t "visible" (list_to_map cells) [] ∅ ∅.

(** A sheet with the merged range A1:A3 and row 2 hidden, a sheet
    without merged ranges and row 1 hidden, and the cell A1. *)
Definition merged_sheet : Worksheet :=
  mkWorksheet "Sheet1" "visible" ∅ [mkRange 1 1 1 3] ∅ {[2 := mkDimension true]}.

Definition plain_hidden_sheet : Worksheet :=
  mkWorksheet "Sheet1" "visible" ∅ [] ∅ {[1 := mkDimension true]}.

Definition cell_A1 : Cell := mkCell 1 1 (VStr "X") TYPE_STRING.

(** Two sheets whose cell A1 is a formula, with the texts "=1+1" and
    "=1+2". *)
Definition formula_sheet (f : string) : Worksheet :=
  mkWorksheet "Sheet1" "visible" {[(1, 1) := (VStr f, TYPE_FORMULA)]} [] ∅ ∅.

Definition empty_text_sheet : Worksheet :=
  mkWorksheet "Sheet1" "visible" {[(1, 1) := (VStr "", TYPE_STRING)]} [] ∅ ∅.

Definition blank_sheet : Worksheet :=
  mkWorksheet "Sheet1" "visible" ∅ [] ∅ ∅.

(** A base workbook whose second sheet is hidden, and a target workbook
    with both sheets visible; the cell A1 differs in both sheets. *)
Definition two_sheets_base : Workbook :=
  [sheet_of "Sheet1" [((1, 1), text "a")];
   mkWorksheet "Sheet2" "hidden" {[(1, 1) := text "a"]} [] ∅ ∅].

Definition two_sheets_target : Workbook :=
  [sheet_of "Sheet1" [((1, 1), text "b")];
   sheet_of "Sheet2" [((1, 1), text "b")]].

(** The sheets of the simple scenario: A1 = 5 in both, B1 = 10 in the
    base and B1 = 99 in the target, all stored as numbers. *)
Definition base_sheet1 : Worksheet :=
  sheet_of "Sheet1" [((1, 1), num 5); ((1, 2), num 10)].

Definition target_sheet1 : Worksheet :=
  sheet_of "Sheet1" [((1, 1), num 5); ((1, 2), num 99)].

(** ** Further notions for the properties of the script *)

(** A record with its two values exchanged. *)
Definition swap_values (d : Difference) : Difference :=
  mkDifference (worksheet_name d) (cell_address d) (value2 d) (value1 d).

(** The type tags the loop body blanks. *)
Definition masked_types : list string :=
  [TYPE_NULL; TYPE_ERROR; TYPE_FORMULA; TYPE_FORMULA_CACHE_STRING].

(** What a sheet that was handed to the loops may differ in from the
    sheet as it was: cells that were stored keep their content, and a
    cell that was not stored is missing or an empty cell. *)
Definition padded (ws ws' : Worksheet) : Prop :=
  title ws' = title ws
  ∧ sheet_state ws' = sheet_state ws
  ∧ merged_cells ws' = merged_cells ws
  ∧ column_dimensions ws' = column_dimensions ws
  ∧ row_dimensions ws' = row_dimensions ws
  ∧ (∀ r c x, _cells ws !! (r, c) = Some x → _cells ws' !! (r, c) = Some x)
  ∧ (∀ r c x, _cells ws' !! (r, c) = Some x →
       _cells ws !! (r, c) = Some x ∨ x = (VNone, "n")).

(** The keys of a sheet lie at rows and columns from 1 on, as in every
    sheet openpyxl builds. *)
Definition keys_positive (ws : Worksheet) : Prop :=
  ∀ r c x, _cells ws !! (r, c) = Some x → 1 ≤ r ∧ 1 ≤ c.

(** A sheet with text in A1 and B2 and the range A1:B2 merged, and the
    same sheet with row 2 hidden. *)
Definition merged_visible_sheet : Worksheet :=
  mkWorksheet "Sheet1" "visible" {[(1, 1) := text "X"; (2, 2) := text "Y"]}
    [mkRange 1 1 2 2] ∅ ∅.

Definition merged_hidden_sheet : Worksheet :=
  mkWorksheet "Sheet1" "visible" {[(1, 1) := text "X"; (2, 2) := text "Y"]}
    [mkRange 1 1 2 2] ∅ {[2 := mkDimension true]}.



(** A sheet with text in C3 only. *)
Definition far_sheet : Worksheet := sheet_of "Sheet1" [((3, 3), text "far")].

(** * Properties *)

(** ** Column letters *)

Example get_column_letter_2 : get_column_letter 2 = "B".
Proof. reflexivity. Qed.
Example get_column_letter_27 : get_column_letter 27 = "AA".
Proof. reflexivity. Qed.
Example get_column_letter_702 : get_column_letter 702 = "ZZ".
Proof. reflexivity. Qed.
Example get_column_letter_18278 : get_column_letter 18278 = "ZZZ".
Proof. vm_compute. reflexivity. Qed.

(** Fuel beyond the index does not change the letters: the loop has
    stopped before it runs out. *)
Lemma column_letter_loop_fuel fuel1 : ∀ fuel2 col_idx letters,
  (Z.to_nat col_idx ≤ fuel1)%nat → (Z.to_nat col_idx ≤ fuel2)%nat →
  column_letter_loop fuel1 col_idx letters = column_letter_loop fuel2 col_idx letters.
Proof.
  induction fuel1 as [|fuel1 IH]; intros fuel2 col_idx letters H1 H2.
  - destruct fuel2 as [|fuel2]; simpl; [done|].
    by rewrite bool_decide_eq_false_2 by lia.
  - destruct fuel2 as [|fuel2]; simpl.
    + by rewrite bool_decide_eq_false_2 by lia.
    + case_bool_decide as Hpos; [|done].
      assert (col_idx / 26 < col_idx) by (apply Z.div_lt; lia).
      case_bool_decide as Hrem; apply IH; lia.
Qed.

(** ** Sheets that gain empty cells *)

Lemma set_cells_id ws : set_cells ws (_cells ws) = ws.
Proof. by destruct ws. Qed.

Lemma extends_refl ws : extends ws ws.
Proof. exists (_cells ws). split; [by rewrite set_cells_id | by left]. Qed.

Lemma extends_trans ws1 ws2 ws3 :
  extends ws1 ws2 → extends ws2 ws3 → extends ws1 ws3.
Proof.
  intros (m & -> & H1) (m' & -> & H2). exists m'. split; [done|].
  intros r c. simpl in H2.
  destruct (H2 r c) as [E2|(E2 & E2' & ? & ?)], (H1 r c) as [E1|(E1 & E1' & ? & ?)].
  - left. congruence.
  - right. rewrite E2. done.
  - right. rewrite <- E1. done.
  - congruence.
Qed.

Lemma cell_peek ws r c : (cell ws r c).1 = peek ws r c.
Proof.
  unfold cell, peek, content. by destruct (_cells ws !! (r, c)) as [[v t]|].
Qed.

Lemma cell_extends ws r c : 1 ≤ r → 1 ≤ c → extends ws (cell ws r c).2.
Proof.
  intros Hr Hc. unfold cell.
  destruct (_cells ws !! (r, c)) as [[v t]|] eqn:E; simpl; [apply extends_refl|].
  eexists. split; [done|]. intros r' c'.
  destruct (decide ((r, c) = (r', c'))) as [[= <- <-]|Hne].
  - right. by rewrite lookup_insert_eq.
  - left. by rewrite lookup_insert_ne.
Qed.

Lemma extends_content ws ws' r c : extends ws ws' → content ws' r c = content ws r c.
Proof.
  intros (m & -> & H). unfold content. simpl.
  destruct (H r c) as [->|(-> & -> & _)]; done.
Qed.

Lemma extends_peek ws ws' r c : extends ws ws' → peek ws' r c = peek ws r c.
Proof. intros H. unfold peek. by rewrite (extends_content _ _ _ _ H). Qed.

Lemma extends_title ws ws' : extends ws ws' → title ws' = title ws.
Proof. by intros (m & -> & _). Qed.

Lemma extends_sheet_state ws ws' : extends ws ws' → sheet_state ws' = sheet_state ws.
Proof. by intros (m & -> & _). Qed.

Lemma extends_is_worksheet_hidden ws ws' :
  extends ws ws' → is_worksheet_hidden ws' = is_worksheet_hidden ws.
Proof. intros H. unfold is_worksheet_hidden. by rewrite (extends_sheet_state _ _ H). Qed.

Lemma any_cell_hidden_set_cells ws m l :
  any_cell_hidden (set_cells ws m) l = any_cell_hidden ws l.
Proof. induction l as [|[r c] l IH]; simpl; [done|]. by rewrite IH. Qed.

Lemma is_cell_hidden_set_cells ws m x :
  is_cell_hidden (set_cells ws m) x = is_cell_hidden ws x.
Proof.
  unfold is_cell_hidden. simpl.
  induction (merged_cells ws) as [|rng l IH]; simpl; [done|].
  by rewrite ?any_cell_hidden_set_cells, IH.
Qed.

Lemma extends_compared_text ws ws' x :
  extends ws ws' → compared_text ws' x = compared_text ws x.
Proof.
  intros (m & -> & _). unfold compared_text. by rewrite is_cell_hidden_set_cells.
Qed.

Lemma extends_diff_at ws1 ws1' ws2 ws2' r c :
  extends ws1 ws1' → extends ws2 ws2' → diff_at ws1' ws2' r c = diff_at ws1 ws2 r c.
Proof.
  intros H1 H2. unfold diff_at.
  rewrite (extends_peek _ _ _ _ H1), (extends_peek _ _ _ _ H2).
  rewrite (extends_compared_text _ _ _ H1), (extends_compared_text _ _ _ H2).
  by rewrite (extends_title _ _ H1).
Qed.

(** ** The loops over the cells *)

Lemma cell_title ws r c : title (cell ws r c).2 = title ws.
Proof. unfold cell. by destruct (_cells ws !! (r, c)) as [[v t]|]. Qed.

Lemma cell_compared_text ws r c x :
  compared_text (cell ws r c).2 x = compared_text ws x.
Proof.
  unfold cell. destruct (_cells ws !! (r, c)) as [[v t]|]; simpl; [done|].
  unfold compared_text. by rewrite is_cell_hidden_set_cells.
Qed.

(** One step of the loop body: what it appends is [diff_at], and each
    sheet is the one [Worksheet.cell] leaves behind. *)
Lemma compare_cell_step r c st :
  compare_cell r c st =
    mkSheetState (cell (st_ws1 st) r c).2 (cell (st_ws2 st) r c).2
      (st_differences st ++ option_list (diff_at (st_ws1 st) (st_ws2 st) r c))%list.
Proof.
  unfold compare_cell, diff_at.
  rewrite <- !cell_peek, <- (cell_title (st_ws1 st) r c).
  rewrite <- (cell_compared_text (st_ws1 st) r c), <- (cell_compared_text (st_ws2 st) r c).
  destruct (cell (st_ws1 st) r c) as [c1 w1] eqn:E1.
  destruct (cell (st_ws2 st) r c) as [c2 w2] eqn:E2. simpl.
  assert (coordinate c1 = coordinate_of r c) as ->.
  { pose proof (cell_peek (st_ws1 st) r c) as Hp. rewrite E1 in Hp. simpl in Hp. by subst c1. }
  case_bool_decide; simpl; [done|]. by rewrite app_nil_r.
Qed.

Lemma compare_cell_inv ws1 ws2 r c st :
  1 ≤ r → 1 ≤ c → sheets_extend ws1 ws2 st →
  sheets_extend ws1 ws2 (compare_cell r c st)
  ∧ st_differences (compare_cell r c st)
    = (st_differences st ++ option_list (diff_at ws1 ws2 r c))%list.
Proof.
  intros Hr Hc [H1 H2]. rewrite compare_cell_step. simpl. split.
  - split; (eapply extends_trans; [eassumption|by apply cell_extends]).
  - by rewrite (extends_diff_at _ _ _ _ r c H1 H2).
Qed.

Lemma columns_loop_inv ws1 ws2 r cols st :
  1 ≤ r → Forall (λ c, 1 ≤ c) cols → sheets_extend ws1 ws2 st →
  let st' := foldl (λ st c, compare_cell r c st) st cols in
  sheets_extend ws1 ws2 st'
  ∧ st_differences st' = (st_differences st ++ row_diffs ws1 ws2 r cols)%list.
Proof.
  intros Hr Hcols. revert st.
  induction Hcols as [|c cols Hc _ IH]; intros st Hst; simpl.
  - split; [done|]. by rewrite app_nil_r.
  - destruct (compare_cell_inv ws1 ws2 r c st Hr Hc Hst) as [Hst' Hd].
    destruct (IH _ Hst') as [Hst'' Hd']. split; [done|].
    rewrite Hd', Hd. unfold row_diffs. simpl. by rewrite <- app_assoc.
Qed.

Lemma rows_loop_inv ws1 ws2 rows cols st :
  Forall (λ r, 1 ≤ r) rows → Forall (λ c, 1 ≤ c) cols → sheets_extend ws1 ws2 st →
  let st' := foldl (λ st r, foldl (λ st c, compare_cell r c st) st cols) st rows in
  sheets_extend ws1 ws2 st'
  ∧ st_differences st' = (st_differences st ++ grid_diffs ws1 ws2 rows cols)%list.
Proof.
  intros Hrows Hcols. revert st.
  induction Hrows as [|r rows Hr _ IH]; intros st Hst; simpl.
  - split; [done|]. by rewrite app_nil_r.
  - destruct (columns_loop_inv ws1 ws2 r cols st Hr Hcols Hst) as [Hst' Hd].
    destruct (IH _ Hst') as [Hst'' Hd']. split; [done|].
    rewrite Hd', Hd. unfold grid_diffs. simpl. by rewrite <- app_assoc.
Qed.

Lemma seqZ_1_positive n : Forall (λ x, 1 ≤ x) (seqZ 1 n).
Proof. apply Forall_seqZ. lia. Qed.

(** ** The bounds of a sheet *)

Lemma foldr_max_ge x l y : y ∈ x :: l → y ≤ foldr Z.max x l.
Proof.
  induction l as [|z l IH]; simpl.
  - intros ->%list_elem_of_singleton. lia.
  - rewrite !elem_of_cons. intros [->|[->|H]].
    + pose proof (IH (list_elem_of_here _ _)). lia.
    + lia.
    + pose proof (IH (list_elem_of_further _ _ _ H)). lia.
Qed.

Lemma foldr_max_in x l : foldr Z.max x l ∈ x :: l.
Proof.
  induction l as [|z l IH]; simpl; [by left|].
  destruct (Z.max_spec z (foldr Z.max x l)) as [[_ ->]|[_ ->]].
  - apply elem_of_cons in IH as [->|IH]; [by left|by do 2 right].
  - right. by left.
Qed.

Lemma max_or_ge d l y : y ∈ l → y ≤ max_or d l.
Proof. destruct l; [by intros ?%not_elem_of_nil|apply foldr_max_ge]. Qed.

Lemma max_or_in d l : l ≠ [] → max_or d l ∈ l.
Proof. destruct l; [done|intros _; apply foldr_max_in]. Qed.

Lemma ws_max_row_ge ws r c x : _cells ws !! (r, c) = Some x → r ≤ ws_max_row ws.
Proof.
  intros H. apply max_or_ge, list_elem_of_fmap.
  exists ((r, c), x). split; [done|]. by apply elem_of_map_to_list.
Qed.

Lemma ws_max_column_ge ws r c x : _cells ws !! (r, c) = Some x → c ≤ ws_max_column ws.
Proof.
  intros H. apply max_or_ge, list_elem_of_fmap.
  exists ((r, c), x). split; [done|]. by apply elem_of_map_to_list.
Qed.

Lemma ws_max_row_cases ws :
  (_cells ws = ∅ ∧ ws_max_row ws = 1)
  ∨ ∃ c x, _cells ws !! (ws_max_row ws, c) = Some x.
Proof.
  unfold ws_max_row.
  destruct (map_to_list (_cells ws)) as [|kv l] eqn:E.
  - left. split; [by apply map_to_list_empty_iff|done].
  - right.
    assert ((λ kv : Z * Z * (Value * string), kv.1.1) <$> kv :: l ≠ []) as Hne by done.
    apply (max_or_in 1) in Hne. apply list_elem_of_fmap in Hne as ([[r c] x] & -> & Hin).
    exists c, x. simpl. apply elem_of_map_to_list. by rewrite E.
Qed.

Lemma ws_max_column_cases ws :
  (_cells ws = ∅ ∧ ws_max_column ws = 1)
  ∨ ∃ r x, _cells ws !! (r, ws_max_column ws) = Some x.
Proof.
  unfold ws_max_column.
  destruct (map_to_list (_cells ws)) as [|kv l] eqn:E.
  - left. split; [by apply map_to_list_empty_iff|done].
  - right.
    assert ((λ kv : Z * Z * (Value * string), kv.1.2) <$> kv :: l ≠ []) as Hne by done.
    apply (max_or_in 1) in Hne. apply list_elem_of_fmap in Hne as ([[r c] x] & -> & Hin).
    exists r, x. simpl. apply elem_of_map_to_list. by rewrite E.
Qed.

(** Cells are only added at coordinates from 1 on, so the bounds of a
    sheet never shrink. *)
Lemma extends_max_row ws ws' : extends ws ws' → ws_max_row ws ≤ ws_max_row ws'.
Proof.
  intros (m & -> & H).
  destruct (ws_max_row_cases ws) as [[Hemp ->]|(c & x & Hk)].
  - destruct (ws_max_row_cases (set_cells ws m)) as [[_ ->]|(c & x & Hk)]; [done|].
    simpl in Hk. destruct (H (ws_max_row (set_cells ws m)) c) as [E|(_ & _ & ? & _)]; [|done].
    rewrite Hk, Hemp, lookup_empty in E. done.
  - destruct (H (ws_max_row ws) c) as [E|(E & _)]; [|congruence].
    rewrite Hk in E. by eapply ws_max_row_ge.
Qed.

Lemma extends_max_column ws ws' : extends ws ws' → ws_max_column ws ≤ ws_max_column ws'.
Proof.
  intros (m & -> & H).
  destruct (ws_max_column_cases ws) as [[Hemp ->]|(r & x & Hk)].
  - destruct (ws_max_column_cases (set_cells ws m)) as [[_ ->]|(r & x & Hk)]; [done|].
    simpl in Hk. destruct (H r (ws_max_column (set_cells ws m))) as [E|(_ & _ & _ & ?)]; [|done].
    rewrite Hk, Hemp, lookup_empty in E. done.
  - destruct (H r (ws_max_column ws)) as [E|(E & _)]; [|congruence].
    rewrite Hk in E. by eapply ws_max_column_ge.
Qed.

(** Beyond the bounds of a sheet there is no stored cell. *)
Lemma peek_beyond ws r c :
  ws_max_row ws < r ∨ ws_max_column ws < c → peek ws r c = mkCell r c VNone "n".
Proof.
  intros Hb. unfold peek, content.
  destruct (_cells ws !! (r, c)) as [x|] eqn:E; [|done].
  pose proof (ws_max_row_ge _ _ _ _ E). pose proof (ws_max_column_ge _ _ _ _ E). lia.
Qed.

Lemma compared_text_null ws x : data_type x = "n" → compared_text ws x = "".
Proof. intros H. unfold compared_text. by rewrite H. Qed.

Lemma diff_at_beyond ws1 ws2 r c :
  Z.max (ws_max_row ws1) (ws_max_row ws2) < r
  ∨ Z.max (ws_max_column ws1) (ws_max_column ws2) < c →
  diff_at ws1 ws2 r c = None.
Proof.
  intros Hb. unfold diff_at.
  rewrite (peek_beyond ws1), (peek_beyond ws2) by lia.
  by rewrite !compared_text_null.
Qed.

(** ** Walking a larger grid finds the same differences *)

Lemma bind_all_nil {A B} (g : A → list B) (l : list A) :
  (∀ x, x ∈ l → g x = []) → l ≫= g = [].
Proof.
  induction l as [|x l IH]; intros H; [done|].
  rewrite bind_cons, (H x) by by left. apply IH. intros y Hy. apply H. by right.
Qed.

Lemma bind_seqZ_extend {A} (g : Z → list A) n n' :
  n ≤ n' → (∀ x, n < x → g x = []) → seqZ 1 n' ≫= g = seqZ 1 n ≫= g.
Proof.
  intros Hle Hg. destruct (decide (n ≤ 0)) as [Hn|Hn].
  - rewrite (seqZ_nil 1 n) by done. apply bind_all_nil.
    intros x Hx%elem_of_seqZ. apply Hg. lia.
  - replace n' with (n + (n' - n)) by lia.
    rewrite seqZ_app, bind_app by lia.
    rewrite (bind_all_nil g (seqZ (1 + n) _)), app_nil_r; [done|].
    intros x Hx%elem_of_seqZ. apply Hg. lia.
Qed.

Lemma grid_diffs_extend ws1 ws2 ws1' ws2' R C :
  extends ws1 ws1' → extends ws2 ws2' →
  Z.max (ws_max_row ws1) (ws_max_row ws2) ≤ R →
  Z.max (ws_max_column ws1) (ws_max_column ws2) ≤ C →
  grid_diffs ws1' ws2' (seqZ 1 R) (seqZ 1 C) = sheet_diffs ws1 ws2.
Proof.
  intros H1 H2 HR HC. unfold sheet_diffs, grid_diffs.
  rewrite (bind_seqZ_extend _ _ R HR).
  - apply list_bind_ext; [|done]. intros r. unfold row_diffs.
    rewrite (bind_seqZ_extend _ _ C HC).
    + apply list_bind_ext; [|done]. intros c.
      by rewrite (extends_diff_at _ _ _ _ r c H1 H2).
    + intros c Hc. rewrite (extends_diff_at _ _ _ _ r c H1 H2).
      by rewrite diff_at_beyond by by right.
  - intros r Hr. apply bind_all_nil. intros c _.
    rewrite (extends_diff_at _ _ _ _ r c H1 H2).
    by rewrite diff_at_beyond by by left.
Qed.

Lemma extends_sheet_diffs ws1 ws2 ws1' ws2' :
  extends ws1 ws1' → extends ws2 ws2' → sheet_diffs ws1' ws2' = sheet_diffs ws1 ws2.
Proof.
  intros H1 H2. apply grid_diffs_extend; [done..| |].
  - pose proof (extends_max_row _ _ H1). pose proof (extends_max_row _ _ H2). lia.
  - pose proof (extends_max_column _ _ H1). pose proof (extends_max_column _ _ H2). lia.
Qed.

(** The two loops over a pair of sheets, whatever cells the sheets have
    gained before: the differences of the original pair are appended, and
    the sheets gain empty cells only. *)
Lemma compare_worksheets_inv ws1 ws2 st :
  sheets_extend ws1 ws2 st →
  sheets_extend ws1 ws2 (compare_worksheets st)
  ∧ st_differences (compare_worksheets st)
    = (st_differences st ++ sheet_diffs ws1 ws2)%list.
Proof.
  intros Hst. unfold compare_worksheets.
  set (R := Z.max (ws_max_row (st_ws1 st)) (ws_max_row (st_ws2 st))).
  set (C := Z.max (ws_max_column (st_ws1 st)) (ws_max_column (st_ws2 st))).
  destruct (rows_loop_inv ws1 ws2 (seqZ 1 R) (seqZ 1 C) st
              (seqZ_1_positive _) (seqZ_1_positive _) Hst) as [Hst' Hd].
  split; [exact Hst'|]. rewrite Hd. f_equal.
  destruct Hst as [H1 H2].
  apply (grid_diffs_extend ws1 ws2 ws1 ws2 R C (extends_refl _) (extends_refl _)).
  - pose proof (extends_max_row _ _ H1). pose proof (extends_max_row _ _ H2). lia.
  - pose proof (extends_max_column _ _ H1). pose proof (extends_max_column _ _ H2). lia.
Qed.

(** ** The loop over the sheet names *)

Lemma books_extend_refl wb : books_extend wb wb.
Proof. apply Forall_Forall2_diag, Forall_forall. intros ws _. apply extends_refl. Qed.

Lemma books_extend_sheetnames wb wb' : books_extend wb wb' → sheetnames wb' = sheetnames wb.
Proof.
  induction 1 as [|ws ws' wb wb' H _ IH]; [done|].
  unfold sheetnames in *. csimpl. by rewrite IH, (extends_title _ _ H).
Qed.

Lemma get_sheet_extends wb wb' name :
  books_extend wb wb' →
  match get_sheet wb name with
  | Some (i, ws) => ∃ ws', get_sheet wb' name = Some (i, ws') ∧ extends ws ws'
  | None => get_sheet wb' name = None
  end.
Proof.
  unfold get_sheet. induction 1 as [|ws ws' wb wb' H _ IH]; simpl; [done|].
  rewrite (extends_title _ _ H). destruct (decide (title ws = name)); [by exists ws'|].
  destruct (list_find _ wb) as [[i x]|]; simpl.
  - destruct IH as (x' & -> & Hx). by exists x'.
  - by rewrite IH.
Qed.

Lemma get_sheet_lookup wb name i ws : get_sheet wb name = Some (i, ws) → wb !! i = Some ws.
Proof. unfold get_sheet. by intros (? & _)%list_find_Some. Qed.

Lemma get_sheet_title wb name i ws : get_sheet wb name = Some (i, ws) → title ws = name.
Proof. unfold get_sheet. by intros (_ & ? & _)%list_find_Some. Qed.

(** [workbook[name]] does not fail for a name taken from [sheetnames]. *)
Lemma get_sheet_is_Some wb name : name ∈ sheetnames wb → is_Some (get_sheet wb name).
Proof.
  intros (ws & -> & Hin)%list_elem_of_fmap.
  by apply (list_find_elem_of (λ ws', title ws' = title ws) wb ws).
Qed.

Lemma books_extend_insert wb wb' i ws ws' :
  books_extend wb wb' → wb !! i = Some ws → extends ws ws' →
  books_extend wb (<[i := ws']> wb').
Proof.
  intros H Hi Hws. rewrite <- (list_insert_id wb i ws Hi) at 1.
  by apply Forall2_insert.
Qed.

Lemma compare_sheet_inv wb1 wb2 name st :
  books_inv wb1 wb2 st →
  books_inv wb1 wb2 (compare_sheet name st)
  ∧ bs_differences (compare_sheet name st)
    = (bs_differences st ++ name_diffs wb1 wb2 name)%list.
Proof.
  intros [H1 H2]. unfold compare_sheet, name_diffs.
  rewrite (books_extend_sheetnames _ _ H2).
  case_bool_decide; [by rewrite app_nil_r|].
  pose proof (get_sheet_extends wb1 _ name H1) as G1.
  pose proof (get_sheet_extends wb2 _ name H2) as G2.
  destruct (get_sheet wb1 name) as [[i1 ws1]|] eqn:E1;
    [destruct G1 as (ws1' & -> & X1)|rewrite G1; by rewrite app_nil_r].
  destruct (get_sheet wb2 name) as [[i2 ws2]|] eqn:E2;
    [destruct G2 as (ws2' & -> & X2)|rewrite G2; by rewrite app_nil_r].
  rewrite (extends_is_worksheet_hidden _ _ X1), (extends_is_worksheet_hidden _ _ X2).
  destruct (is_worksheet_hidden ws1); [by rewrite app_nil_r|].
  destruct (is_worksheet_hidden ws2); [by rewrite app_nil_r|].
  destruct (compare_worksheets_inv ws1 ws2
              (mkSheetState ws1' ws2' (bs_differences st))) as [[Y1 Y2] Hd]; [done|].
  simpl. split; [|done]. split; simpl.
  - eapply books_extend_insert; eauto using get_sheet_lookup.
  - eapply books_extend_insert; eauto using get_sheet_lookup.
Qed.

Lemma names_loop_inv wb1 wb2 names st :
  books_inv wb1 wb2 st →
  let st' := foldl (λ st sheetname, compare_sheet sheetname st) st names in
  books_inv wb1 wb2 st'
  ∧ bs_differences st' = (bs_differences st ++ (names ≫= name_diffs wb1 wb2))%list.
Proof.
  revert st. induction names as [|name names IH]; intros st Hst; simpl.
  - split; [done|]. by rewrite app_nil_r.
  - destruct (compare_sheet_inv wb1 wb2 name st Hst) as [Hst' Hd].
    destruct (IH _ Hst') as [Hst'' Hd']. split; [done|].
    rewrite Hd', Hd. by rewrite <- app_assoc.
Qed.

(** Comparing with a base workbook that has gained empty cells in
    earlier comparisons finds the differences of the original one. *)
Lemma compare_workbooks_inv wb1 wb1' wb2 :
  books_extend wb1 wb1' →
  books_extend wb1 (bs_wb1 (compare_workbooks wb1' wb2))
  ∧ bs_differences (compare_workbooks wb1' wb2) = book_diffs wb1 wb2.
Proof.
  intros H1. unfold compare_workbooks. rewrite (books_extend_sheetnames _ _ H1).
  destruct (names_loop_inv wb1 wb2 (sheetnames wb1) (mkBookState wb1' wb2 []))
    as [[Y1 _] Hd]; [split; [done|apply books_extend_refl]|].
  split; [done|]. by rewrite Hd.
Qed.

Lemma compare_workbooks_diffs wb1 wb2 :
  bs_differences (compare_workbooks wb1 wb2) = book_diffs wb1 wb2.
Proof. apply compare_workbooks_inv, books_extend_refl. Qed.

(** ** The grid differ *)

Lemma spec_fetch_peek ws r c : spec_fetch ws r c = peek ws r c.
Proof.
  unfold spec_fetch. case_bool_decide as Hb.
  - by rewrite peek_beyond.
  - unfold peek, content. by destruct (_cells ws !! (r, c)) as [[v t]|].
Qed.

Lemma spec_grid_differ_sheet_diffs ws1 ws2 : spec_grid_differ ws1 ws2 = sheet_diffs ws1 ws2.
Proof.
  unfold spec_grid_differ, sheet_diffs, grid_diffs, row_diffs.
  apply list_bind_ext; [|done]. intros r.
  apply list_bind_ext; [|done]. intros c.
  rewrite !spec_fetch_peek. unfold diff_at.
  repeat case_bool_decide; done.
Qed.

Lemma compare_worksheets_diffs ws1 ws2 d :
  st_differences (compare_worksheets (mkSheetState ws1 ws2 d))
  = (d ++ sheet_diffs ws1 ws2)%list.
Proof.
  destruct (compare_worksheets_inv ws1 ws2 (mkSheetState ws1 ws2 d)) as [_ ->]; [|done].
  split; apply extends_refl.
Qed.

(** C6.  For one pair of sheets the loops of [main] append exactly what
    the Grid Differ of the specification produces: the coordinates with
    row in 1..max(maxRow1, maxRow2) and column in 1..max(maxColumn1,
    maxColumn2) are visited in row-major order, a coordinate beyond the
    populated bound of a sheet is read as a default empty cell of that
    sheet, and each record carries the title of the first sheet, the
    address of the cell and the two compared texts. *)
Theorem compare_worksheets_grid_differ (ws1 ws2 : Worksheet) (d : list Difference) :
  st_differences (compare_worksheets (mkSheetState ws1 ws2 d))
  = (d ++ spec_grid_differ ws1 ws2)%list.
Proof. by rewrite compare_worksheets_diffs, spec_grid_differ_sheet_diffs. Qed.

(** ** The loop over the targets *)

Lemma main_loop_inv stem1 wb1 targets st :
  books_extend wb1 (ms_workbook1 st) →
  let st' := foldl (process_target stem1) st targets in
  books_extend wb1 (ms_workbook1 st')
  ∧ ms_differences st'
    = (ms_differences st
       ++ ((λ t, bs_differences (compare_workbooks wb1 (target_workbook t))) <$> targets))%list
  ∧ ms_saved st'
    = (ms_saved st
       ++ omap (λ t, save_differences stem1 (target_stem t)
                       (bs_differences (compare_workbooks wb1 (target_workbook t))))
            targets)%list.
Proof.
  revert st. induction targets as [|t targets IH]; intros st Hst; simpl.
  - by rewrite !app_nil_r.
  - destruct (compare_workbooks_inv wb1 (ms_workbook1 st) (target_workbook t) Hst)
      as [Hwb Hd].
    destruct (IH (process_target stem1 st t)) as (Hwb' & Hd' & Hs'); [done|].
    split; [done|]. rewrite Hd', Hs'. simpl.
    rewrite Hd, (compare_workbooks_diffs wb1). rewrite <- !app_assoc. split; [done|].
    f_equal. by destruct (save_differences _ _ _).
Qed.

(** C9.  The list of differences [main] builds for a target is the one
    that comparing the base workbook as loaded with that target alone
    gives, whichever targets were processed before it: the cells that
    earlier comparisons added to the shared base workbook do not change
    the result. *)
Theorem main_differences_independent (stem1 : string) (wb1 : Workbook)
    (targets : list Target) :
  ms_differences (main stem1 wb1 targets)
  = (λ t, bs_differences (compare_workbooks wb1 (target_workbook t))) <$> targets.
Proof.
  unfold main.
  destruct (main_loop_inv stem1 wb1 targets (mkMainState wb1 [] []))
    as (_ & -> & _); [apply books_extend_refl|done].
Qed.

(** ** The sheet matcher *)

Lemma get_sheet_in_sheetnames wb name i ws :
  get_sheet wb name = Some (i, ws) → name ∈ sheetnames wb.
Proof.
  intros H. apply list_elem_of_fmap. exists ws. split.
  - symmetry. by eapply get_sheet_title.
  - eapply list_elem_of_lookup_2, get_sheet_lookup, H.
Qed.

Lemma name_diffs_eligible wb1 wb2 name :
  name_diffs wb1 wb2 name
  = if spec_eligible wb1 wb2 name then pair_differences wb1 wb2 name else [].
Proof.
  unfold name_diffs, spec_eligible, pair_differences, hidden_in.
  case_bool_decide as Hn2.
  - rewrite (bool_decide_eq_false_2 (name ∈ sheetnames wb2)) by done.
    by rewrite andb_false_r.
  - rewrite (bool_decide_eq_true_2 _ Hn2).
    destruct (get_sheet wb1 name) as [[i1 ws1]|] eqn:E1.
    + rewrite (bool_decide_eq_true_2 _ (get_sheet_in_sheetnames _ _ _ _ E1)).
      destruct (get_sheet wb2 name) as [[i2 ws2]|] eqn:E2.
      * rewrite compare_worksheets_diffs. simpl.
        by destruct (is_worksheet_hidden ws1), (is_worksheet_hidden ws2).
      * by destruct (is_worksheet_hidden ws1).
    + by destruct (_ && _ && _ && _).
Qed.

Lemma sheet_diffs_worksheet_name ws1 ws2 d :
  d ∈ sheet_diffs ws1 ws2 → worksheet_name d = title ws1.
Proof.
  unfold sheet_diffs, grid_diffs, row_diffs.
  intros (r & Hd & _)%list_elem_of_bind. apply list_elem_of_bind in Hd as (c & Hd & _).
  unfold diff_at in Hd. case_bool_decide; simpl in Hd; [|by apply not_elem_of_nil in Hd].
  by apply list_elem_of_singleton in Hd as ->.
Qed.

(** C5.  The differences of a pair of workbooks are, for the sheet names
    of the base workbook in their declared order, what the cell loops
    find for the pair of sheets when the name is present in both
    workbooks and the sheet is hidden in neither, and nothing otherwise;
    so every record names a sheet that meets both conditions. *)
Theorem differences_by_eligible_sheet (wb1 wb2 : Workbook) :
  bs_differences (compare_workbooks wb1 wb2)
  = (sheetnames wb1 ≫= λ name,
       if spec_eligible wb1 wb2 name then pair_differences wb1 wb2 name else [])
  ∧ ∀ d, d ∈ bs_differences (compare_workbooks wb1 wb2) →
         spec_eligible wb1 wb2 (worksheet_name d) = true.
Proof.
  rewrite compare_workbooks_diffs. unfold book_diffs. split.
  - apply list_bind_ext; [|done]. intros name. apply name_diffs_eligible.
  - intros d (name & Hd & _)%list_elem_of_bind.
    rewrite name_diffs_eligible in Hd.
    destruct (spec_eligible wb1 wb2 name) eqn:E; [|by apply not_elem_of_nil in Hd].
    unfold pair_differences in Hd.
    destruct (get_sheet wb1 name) as [[i1 ws1]|] eqn:E1; [|by apply not_elem_of_nil in Hd].
    destruct (get_sheet wb2 name) as [[i2 ws2]|] eqn:E2; [|by apply not_elem_of_nil in Hd].
    rewrite compare_worksheets_diffs in Hd. simpl in Hd.
    apply sheet_diffs_worksheet_name in Hd.
    by rewrite Hd, (get_sheet_title _ _ _ _ E1).
Qed.

(** A base workbook with a visible and a hidden sheet, and a target
    workbook that has both. *)
Lemma differences_by_eligible_sheet_witness :
  spec_eligible two_sheets_base two_sheets_target "Sheet1" = true
  ∧ spec_eligible two_sheets_base two_sheets_target "Sheet2" = false.
Proof.
  split; [|reflexivity].
  apply (proj2 (differences_by_eligible_sheet two_sheets_base two_sheets_target)
           (mkDifference "Sheet1" "A1" "a" "b")).
  vm_compute. apply list_elem_of_here.
Defined.

(** ** The order of the differences *)

Lemma seqZ_sorted m n : StronglySorted Z.lt (seqZ m n).
Proof.
  destruct (decide (n ≤ 0)) as [Hn|Hn]; [rewrite seqZ_nil by done; constructor|].
  replace n with (Z.of_nat (Z.to_nat n)) by lia. generalize (Z.to_nat n). clear.
  intros k. revert m. induction k as [|k IH]; intros m.
  - rewrite seqZ_nil by done. constructor.
  - rewrite seqZ_cons by lia. replace (Z.pred (Z.of_nat (S k))) with (Z.of_nat k) by lia.
    constructor; [apply IH|]. apply Forall_seqZ. lia.
Qed.

Lemma bind_sorted {A B} (RA : relation A) (RB : relation B) (g : A → list B) l :
  StronglySorted RA l →
  (∀ x, StronglySorted RB (g x)) →
  (∀ x y a b, RA x y → a ∈ g x → b ∈ g y → RB a b) →
  StronglySorted RB (l ≫= g).
Proof.
  intros Hl Hg Hcross. induction Hl as [|x l _ IH Hx]; [constructor|].
  rewrite bind_cons. apply StronglySorted_app_2; [|done..].
  intros a b Ha (y & Hb & Hy)%list_elem_of_bind.
  rewrite Forall_forall in Hx. eauto.
Qed.

Lemma diff_coords_sorted ws1 ws2 rows cols :
  StronglySorted Z.lt rows → StronglySorted Z.lt cols →
  StronglySorted lex_lt (diff_coords ws1 ws2 rows cols).
Proof.
  intros Hrows Hcols. unfold diff_coords.
  assert (∀ r c x,
    x ∈ match diff_at ws1 ws2 r c with Some _ => [(r, c)] | None => [] end → x = (r, c))
    as Hone.
  { intros r c x. destruct (diff_at ws1 ws2 r c).
    - by intros ->%list_elem_of_singleton.
    - by intros ?%not_elem_of_nil. }
  apply (bind_sorted Z.lt); [done| |].
  - intros r. apply (bind_sorted Z.lt); [done| |].
    + intros c. destruct (diff_at ws1 ws2 r c); repeat constructor.
    + intros c c' a b Hlt ->%Hone ->%Hone. right. done.
  - intros r r' a b Hlt (c & ->%Hone & _)%list_elem_of_bind
      (c' & ->%Hone & _)%list_elem_of_bind.
    left. done.
Qed.

Lemma grid_diffs_coords ws1 ws2 rows cols :
  Forall2 (found_at (title ws1)) (grid_diffs ws1 ws2 rows cols)
    (diff_coords ws1 ws2 rows cols).
Proof.
  unfold grid_diffs, row_diffs, diff_coords.
  induction rows as [|r rows IH]; [constructor|].
  rewrite !bind_cons. apply Forall2_app; [|done]. clear IH.
  induction cols as [|c cols IH]; [constructor|].
  rewrite !bind_cons. apply Forall2_app; [|done].
  unfold diff_at. case_bool_decide; repeat constructor.
Qed.

Lemma name_diffs_sorted wb1 wb2 name :
  ∃ coords, StronglySorted lex_lt coords
            ∧ Forall2 (found_at name) (name_diffs wb1 wb2 name) coords.
Proof.
  assert (∃ coords, StronglySorted lex_lt coords ∧ Forall2 (found_at name) [] coords)
    as Hnil by (exists []; split; constructor).
  unfold name_diffs. case_bool_decide; [done|].
  destruct (get_sheet wb1 name) as [[i1 ws1]|] eqn:E1; [|done].
  destruct (get_sheet wb2 name) as [[i2 ws2]|]; [|done].
  destruct (is_worksheet_hidden ws1); [done|].
  destruct (is_worksheet_hidden ws2); [done|].
  rewrite <- (get_sheet_title _ _ _ _ E1).
  eexists. split; [|apply grid_diffs_coords].
  apply diff_coords_sorted; apply seqZ_sorted.
Qed.

(** C7.  The differences of a pair of workbooks are made of one group
    per sheet name of the base workbook, in the declared order of the
    names; the records of a group carry that sheet name, and their
    addresses are those of a list of coordinates in strictly ascending
    (row, column) order. *)
Theorem differences_ordered (wb1 wb2 : Workbook) :
  ∃ groups : list (list Difference),
    bs_differences (compare_workbooks wb1 wb2) = concat groups
    ∧ Forall2 (λ name group,
         ∃ coords, StronglySorted lex_lt coords ∧ Forall2 (found_at name) group coords)
        (sheetnames wb1) groups.
Proof.
  exists (name_diffs wb1 wb2 <$> sheetnames wb1). split.
  - rewrite compare_workbooks_diffs. unfold book_diffs.
    induction (sheetnames wb1) as [|name names IH]; [done|].
    rewrite bind_cons, fmap_cons. simpl. by rewrite IH.
  - apply Forall2_fmap_r, Forall_Forall2_diag, Forall_forall.
    intros name _. apply name_diffs_sorted.
Qed.

(** ** The visibility of a cell *)

Lemma any_cell_hidden_true ws l :
  any_cell_hidden ws l = true
  ↔ ∃ r c, (r, c) ∈ l
           ∧ (hidden (row_dimensions ws !!! r) = true
              ∨ hidden (column_dimensions ws !!! get_column_letter c) = true).
Proof.
  induction l as [|[r c] l IH]; simpl.
  - split; [done|]. by intros (r & c & ?%not_elem_of_nil & _).
  - destruct (hidden (column_dimensions ws !!! get_column_letter c)) eqn:Ec; simpl.
    { split; [|done]. intros _. exists r, c. split; [by left|by right]. }
    destruct (hidden (row_dimensions ws !!! r)) eqn:Er; simpl.
    { split; [|done]. intros _. exists r, c. split; [by left|by left]. }
    rewrite IH. split.
    + intros (r' & c' & Hin & H). exists r', c'. split; [by right|done].
    + intros (r' & c' & Hin & H). exists r', c'. split; [|done].
      apply elem_of_cons in Hin as [[= -> ->]|Hin]; [|done].
      destruct H; congruence.
Qed.


Lemma is_cell_hidden_in_none ws ranges x :
  Forall (λ r, range_contains r x = false) ranges → is_cell_hidden_in ws ranges x = false.
Proof. induction 1 as [|r l Hr _ IH]; simpl; [done|]. by rewrite Hr. Qed.

(** The inner loop has nothing to go through, so no range makes a cell
    hidden. *)
Lemma is_cell_hidden_false ws x : is_cell_hidden ws x = false.
Proof.
  unfold is_cell_hidden. induction (merged_cells ws) as [|rng l IH]; simpl; [done|].
  by destruct (range_contains rng x).
Qed.

(** C3.  [is_cell_hidden] answers False for every sheet and every cell.
    It does so for the cell A1 of a sheet in which A1:A3 is merged and
    row 2 is hidden, where a coordinate of the first range that contains
    the cell lies on a hidden row; and two such sheets with "X" and "Y" in
    A1 are reported to differ in A1. *)
Theorem is_cell_hidden_never_true :
  (∀ ws x, is_cell_hidden ws x = false)
  ∧ (merged_cells merged_sheet = [mkRange 1 1 1 3]
     ∧ range_contains (mkRange 1 1 1 3) cell_A1 = true
     ∧ hidden (row_dimensions merged_sheet !!! 2) = true
     ∧ is_cell_hidden merged_sheet cell_A1 = false)
  ∧ st_differences
      (compare_worksheets
         (mkSheetState (set_cells merged_sheet {[(1, 1) := text "X"]})
            (set_cells merged_sheet {[(1, 1) := text "Y"]}) []))
    = [mkDifference "Sheet1" "A1" "X" "Y"].
Proof.
  split; [apply is_cell_hidden_false|]. split.
  - repeat split; reflexivity.
  - vm_compute. reflexivity.
Qed.

(** ** The text that is compared *)

Lemma compare_cell_same_text r c st :
  compared_text (st_ws1 st) (peek (st_ws1 st) r c)
  = compared_text (st_ws2 st) (peek (st_ws2 st) r c) →
  st_differences (compare_cell r c st) = st_differences st.
Proof.
  intros H. rewrite compare_cell_step. simpl. unfold diff_at.
  rewrite bool_decide_eq_false_2 by (intros Hne; by apply Hne).
  apply app_nil_r.
Qed.

Lemma compared_text_masked ws x :
  data_type x ∈ [TYPE_NULL; TYPE_ERROR; TYPE_FORMULA; TYPE_FORMULA_CACHE_STRING] →
  compared_text ws x = "".
Proof. intros H. unfold compared_text. by rewrite bool_decide_eq_true_2. Qed.

(** C4.  A cell whose type tag is the one of an empty cell, of an error,
    of a formula or of a formula's cached text is compared as the empty
    string, whatever its value is and on either side; where both cells
    of a coordinate carry such a tag, no difference is appended. *)
Theorem masked_types_compare_empty (r c : Z) (st : SheetState) :
  data_type (peek (st_ws1 st) r c)
    ∈ [TYPE_NULL; TYPE_ERROR; TYPE_FORMULA; TYPE_FORMULA_CACHE_STRING] →
  data_type (peek (st_ws2 st) r c)
    ∈ [TYPE_NULL; TYPE_ERROR; TYPE_FORMULA; TYPE_FORMULA_CACHE_STRING] →
  compared_text (st_ws1 st) (cell (st_ws1 st) r c).1 = ""
  ∧ compared_text (st_ws2 st) (cell (st_ws2 st) r c).1 = ""
  ∧ st_differences (compare_cell r c st) = st_differences st.
Proof.
  intros H1 H2. rewrite !cell_peek.
  pose proof (compared_text_masked (st_ws1 st) _ H1) as E1.
  pose proof (compared_text_masked (st_ws2 st) _ H2) as E2.
  split; [done|]. split; [done|].
  apply compare_cell_same_text. by rewrite E1, E2.
Qed.

Lemma masked_types_compare_empty_witness :
  st_differences
    (compare_cell 1 1 (mkSheetState (formula_sheet "=1+1") (formula_sheet "=1+2") []))
  = [].
Proof.
  apply (masked_types_compare_empty 1 1
           (mkSheetState (formula_sheet "=1+1") (formula_sheet "=1+2") [])).
  - vm_compute. do 2 apply list_elem_of_further. apply list_elem_of_here.
  - vm_compute. do 2 apply list_elem_of_further. apply list_elem_of_here.
Defined.

(** C10.  A text cell that holds the empty string is compared as the
    empty string, as a cell that is absent from the sheet is; where one
    sheet holds such a text cell and the other sheet has no cell, no
    difference is appended. *)
Theorem empty_text_like_absent (r c : Z) (st : SheetState) :
  (_cells (st_ws1 st) !! (r, c) = Some (VStr "", TYPE_STRING)
   ∧ _cells (st_ws2 st) !! (r, c) = None)
  ∨ (_cells (st_ws1 st) !! (r, c) = None
     ∧ _cells (st_ws2 st) !! (r, c) = Some (VStr "", TYPE_STRING)) →
  compared_text (st_ws1 st) (cell (st_ws1 st) r c).1 = ""
  ∧ compared_text (st_ws2 st) (cell (st_ws2 st) r c).1 = ""
  ∧ st_differences (compare_cell r c st) = st_differences st.
Proof.
  intros H. rewrite !cell_peek.
  assert (compared_text (st_ws1 st) (peek (st_ws1 st) r c) = ""
          ∧ compared_text (st_ws2 st) (peek (st_ws2 st) r c) = "") as [E1 E2].
  { unfold peek, content, compared_text.
    destruct H as [[-> ->]|[-> ->]]; simpl;
      split; by repeat (destruct (is_cell_hidden _ _)). }
  split; [done|]. split; [done|].
  apply compare_cell_same_text. by rewrite E1, E2.
Qed.

Lemma empty_text_like_absent_witness :
  st_differences (compare_cell 1 1 (mkSheetState empty_text_sheet blank_sheet [])) = [].
Proof.
  apply (empty_text_like_absent 1 1 (mkSheetState empty_text_sheet blank_sheet [])).
  left. split; reflexivity.
Defined.

(** ** Numbers *)

Lemma any_cell_hidden_ext ws1 ws2 l :
  column_dimensions ws1 = column_dimensions ws2 →
  row_dimensions ws1 = row_dimensions ws2 →
  any_cell_hidden ws1 l = any_cell_hidden ws2 l.
Proof.
  intros Hc Hr. induction l as [|[r c] l IH]; simpl; [done|]. by rewrite Hc, Hr, IH.
Qed.

Lemma is_cell_hidden_in_ext ws1 ws2 ranges x :
  column_dimensions ws1 = column_dimensions ws2 →
  row_dimensions ws1 = row_dimensions ws2 →
  is_cell_hidden_in ws1 ranges x = is_cell_hidden_in ws2 ranges x.
Proof.
  intros Hc Hr. induction ranges as [|rng l IH]; simpl; [done|].
  by rewrite IH.
Qed.

Lemma is_cell_hidden_ext ws1 ws2 x :
  merged_cells ws1 = merged_cells ws2 →
  column_dimensions ws1 = column_dimensions ws2 →
  row_dimensions ws1 = row_dimensions ws2 →
  is_cell_hidden ws1 x = is_cell_hidden ws2 x.
Proof.
  intros Hm Hc Hr. unfold is_cell_hidden. rewrite Hm.
  by apply is_cell_hidden_in_ext.
Qed.

Lemma compared_text_ext ws1 ws2 x :
  merged_cells ws1 = merged_cells ws2 →
  column_dimensions ws1 = column_dimensions ws2 →
  row_dimensions ws1 = row_dimensions ws2 →
  compared_text ws1 x = compared_text ws2 x.
Proof.
  intros Hm Hc Hr. unfold compared_text.
  by rewrite (is_cell_hidden_ext ws1 ws2 x Hm Hc Hr).
Qed.

(** C2.  The tag of an empty cell is the tag of a number, so a cell with
    the numeric tag is compared as the empty string, hidden or not; and
    two sheets with the same merged ranges and hidden flags whose cells
    are equal wherever they are not both numeric have no differences. *)
Theorem numeric_cells_compare_empty :
  TYPE_NULL = TYPE_NUMERIC
  ∧ (∀ ws x, data_type x = TYPE_NUMERIC → compared_text ws x = "")
  ∧ (∀ ws1 ws2 d,
       merged_cells ws1 = merged_cells ws2 →
       column_dimensions ws1 = column_dimensions ws2 →
       row_dimensions ws1 = row_dimensions ws2 →
       (∀ r c, content ws1 r c = content ws2 r c
               ∨ ((content ws1 r c).2 = TYPE_NUMERIC
                  ∧ (content ws2 r c).2 = TYPE_NUMERIC)) →
       st_differences (compare_worksheets (mkSheetState ws1 ws2 d)) = d).
Proof.
  split; [done|]. split; [apply compared_text_null|].
  intros ws1 ws2 d Hm Hc Hr Hcells.
  rewrite compare_worksheets_diffs.
  rewrite <- (app_nil_r d) at 2. f_equal.
  apply bind_all_nil. intros r _. apply bind_all_nil. intros c _.
  unfold diff_at. rewrite bool_decide_eq_false_2; [done|].
  intros Hne. apply Hne. clear Hne.
  destruct (Hcells r c) as [E|[E1 E2]].
  - unfold peek. rewrite E. by apply compared_text_ext.
  - by rewrite !compared_text_null.
Qed.

Lemma numeric_cells_compare_empty_witness :
  st_differences (compare_worksheets (mkSheetState base_sheet1 target_sheet1 [])) = [].
Proof.
  apply (proj2 (proj2 numeric_cells_compare_empty) base_sheet1 target_sheet1 []);
    [reflexivity..|].
  intros r c. unfold content, base_sheet1, target_sheet1, sheet_of. simpl.
  destruct (decide ((1, 1) = (r, c))) as [<-|H1]; [by left|].
  rewrite !(lookup_insert_ne _ (1, 1)) by done.
  destruct (decide ((1, 2) = (r, c))) as [<-|H2]; [by right|].
  rewrite !(lookup_insert_ne _ (1, 2)) by done. by left.
Defined.

(** C1.  In the simple scenario the comparison finds no difference and
    saves no file: the numbers 10 and 99 of B1 carry the numeric tag and
    are compared as empty strings. *)
Theorem simple_diff_finds_nothing :
  bs_differences (compare_workbooks [base_sheet1] [target_sheet1]) = []
  ∧ ms_saved (main "base" [base_sheet1] [mkTarget "target" [target_sheet1]]) = [].
Proof. split; vm_compute; reflexivity. Qed.

(** The same cells stored as text are reported as the scenario says. *)
Example simple_diff_as_text :
  bs_differences
    (compare_workbooks
       [sheet_of "Sheet1" [((1, 1), text "5"); ((1, 2), text "10")]]
       [sheet_of "Sheet1" [((1, 1), text "5"); ((1, 2), text "99")]])
  = [mkDifference "Sheet1" "B1" "10" "99"].
Proof. vm_compute. reflexivity. Qed.

(** ** The workbook of differences *)

Lemma enumerate_cons {A} (x : A) l start :
  enumerate (x :: l) start = (start, x) :: enumerate l (start + 1).
Proof.
  unfold enumerate. cbn [length]. rewrite seqZ_cons by lia. cbn [zip zip_with].
  replace (Z.pred (Z.of_nat (S (length l)))) with (Z.of_nat (length l)) by lia.
  by replace (Z.succ start) with (start + 1) by lia.
Qed.


Lemma set_value_title ws r c s : title (set_value ws r c s) = title ws.
Proof. done. Qed.









(** * Further properties of the script *)

(** ** What a list of differences holds *)

Lemma diff_at_Some ws1 ws2 r c d :
  diff_at ws1 ws2 r c = Some d →
  d = mkDifference (title ws1) (coordinate_of r c)
        (compared_text ws1 (peek ws1 r c)) (compared_text ws2 (peek ws2 r c))
  ∧ compared_text ws1 (peek ws1 r c) ≠ compared_text ws2 (peek ws2 r c).
Proof. unfold diff_at. case_bool_decide; [|done]. by intros [= <-]. Qed.

Lemma elem_of_sheet_diffs ws1 ws2 d :
  d ∈ sheet_diffs ws1 ws2 → ∃ r c, diff_at ws1 ws2 r c = Some d.
Proof.
  unfold sheet_diffs, grid_diffs, row_diffs.
  intros (r & (c & Hd & _)%list_elem_of_bind & _)%list_elem_of_bind.
  exists r, c. destruct (diff_at ws1 ws2 r c) as [d'|]; simpl in Hd.
  - by apply list_elem_of_singleton in Hd as ->.
  - by apply not_elem_of_nil in Hd.
Qed.

Lemma elem_of_book_diffs wb1 wb2 d :
  d ∈ book_diffs wb1 wb2 →
  ∃ name i1 ws1 i2 ws2,
    get_sheet wb1 name = Some (i1, ws1) ∧ get_sheet wb2 name = Some (i2, ws2)
    ∧ is_worksheet_hidden ws1 = false ∧ is_worksheet_hidden ws2 = false
    ∧ d ∈ sheet_diffs ws1 ws2.
Proof.
  unfold book_diffs. intros (name & Hd & _)%list_elem_of_bind.
  unfold name_diffs in Hd. case_bool_decide; [by apply not_elem_of_nil in Hd|].
  destruct (get_sheet wb1 name) as [[i1 ws1]|] eqn:E1; [|by apply not_elem_of_nil in Hd].
  destruct (get_sheet wb2 name) as [[i2 ws2]|] eqn:E2; [|by apply not_elem_of_nil in Hd].
  destruct (is_worksheet_hidden ws1) eqn:Hh1; [by apply not_elem_of_nil in Hd|].
  destruct (is_worksheet_hidden ws2) eqn:Hh2; [by apply not_elem_of_nil in Hd|].
  by exists name, i1, ws1, i2, ws2.
Qed.

(** X1.  The two values of every record of a comparison differ; in
    particular they are never both empty. *)
Theorem reported_values_differ (wb1 wb2 : Workbook) (d : Difference) :
  d ∈ bs_differences (compare_workbooks wb1 wb2) →
  value1 d ≠ value2 d ∧ ¬ (value1 d = "" ∧ value2 d = "").
Proof.
  rewrite compare_workbooks_diffs.
  intros (name & i1 & ws1 & i2 & ws2 & _ & _ & _ & _ & Hd)%elem_of_book_diffs.
  apply elem_of_sheet_diffs in Hd as (r & c & Hd).
  apply diff_at_Some in Hd as [-> Hne]. simpl. split; [done|]. intros [E1 E2]. congruence.
Qed.

Lemma reported_values_differ_witness :
  "a" ≠ "b" ∧ ¬ ("a" = "" ∧ "b" = "").
Proof.
  apply (reported_values_differ two_sheets_base two_sheets_target
           (mkDifference "Sheet1" "A1" "a" "b")).
  vm_compute. apply list_elem_of_here.
Defined.

(** ** A workbook against itself *)

Lemma diff_at_same ws r c : diff_at ws ws r c = None.
Proof. unfold diff_at. by rewrite bool_decide_eq_false_2 by (intros H; by apply H). Qed.

Lemma sheet_diffs_same ws : sheet_diffs ws ws = [].
Proof.
  unfold sheet_diffs, grid_diffs, row_diffs.
  apply bind_all_nil. intros r _. apply bind_all_nil. intros c _.
  by rewrite diff_at_same.
Qed.

Lemma book_diffs_same wb : book_diffs wb wb = [].
Proof.
  unfold book_diffs. apply bind_all_nil. intros name _. unfold name_diffs.
  case_bool_decide; [done|].
  destruct (get_sheet wb name) as [[i ws]|]; [|done].
  destruct (is_worksheet_hidden ws); [done|]. apply sheet_diffs_same.
Qed.

(** X2.  Comparing a workbook with a target that holds the same sheets
    finds no difference, and [main] saves no file when every target is
    such a workbook, however many there are. *)
Theorem same_workbook_no_differences (stem1 : string) (wb : Workbook)
    (stems : list string) :
  bs_differences (compare_workbooks wb wb) = []
  ∧ ms_saved (main stem1 wb ((λ stem, mkTarget stem wb) <$> stems)) = []
  ∧ ms_differences (main stem1 wb ((λ stem, mkTarget stem wb) <$> stems))
    = replicate (length stems) [].
Proof.
  split; [by rewrite compare_workbooks_diffs, book_diffs_same|].
  unfold main.
  destruct (main_loop_inv stem1 wb ((λ stem, mkTarget stem wb) <$> stems)
              (mkMainState wb [] [])) as (_ & -> & ->); [apply books_extend_refl|].
  simpl. induction stems as [|stem stems [IH1 IH2]]; [done|].
  csimpl. rewrite compare_workbooks_diffs, book_diffs_same. simpl.
  by rewrite IH1, IH2.
Qed.

(** ** Exchanging base and target *)

Lemma diff_at_swap ws1 ws2 r c :
  title ws1 = title ws2 →
  diff_at ws2 ws1 r c = swap_values <$> diff_at ws1 ws2 r c.
Proof.
  intros Ht. unfold diff_at. rewrite Ht.
  case_bool_decide as H1; case_bool_decide as H2; simpl; try done; congruence.
Qed.

Lemma fmap_bind_list {A B C} (f : B → C) (g : A → list B) (l : list A) :
  f <$> (l ≫= g) = l ≫= (λ x, f <$> g x).
Proof.
  induction l as [|x l IH]; [done|]. by rewrite !bind_cons, fmap_app, IH.
Qed.

Lemma sheet_diffs_swap ws1 ws2 :
  title ws1 = title ws2 →
  sheet_diffs ws2 ws1 = swap_values <$> sheet_diffs ws1 ws2.
Proof.
  intros Ht. unfold sheet_diffs, grid_diffs, row_diffs.
  rewrite (Z.max_comm (ws_max_row ws2)), (Z.max_comm (ws_max_column ws2)).
  rewrite fmap_bind_list. apply list_bind_ext; [|done]. intros r.
  rewrite fmap_bind_list. apply list_bind_ext; [|done]. intros c.
  rewrite (diff_at_swap _ _ _ _ Ht). by destruct (diff_at ws1 ws2 r c).
Qed.

Lemma name_diffs_swap wb1 wb2 name :
  sheetnames wb1 = sheetnames wb2 →
  name_diffs wb2 wb1 name = swap_values <$> name_diffs wb1 wb2 name.
Proof.
  intros Hn. unfold name_diffs. rewrite Hn.
  case_bool_decide; [done|].
  destruct (get_sheet wb1 name) as [[i1 ws1]|] eqn:E1,
           (get_sheet wb2 name) as [[i2 ws2]|] eqn:E2; try done.
  destruct (is_worksheet_hidden ws1), (is_worksheet_hidden ws2); try done.
  apply sheet_diffs_swap.
  by rewrite (get_sheet_title _ _ _ _ E1), (get_sheet_title _ _ _ _ E2).
Qed.

(** X3.  For two workbooks with the same sheet names in the same order,
    exchanging base and target gives the same records with the two
    values exchanged. *)
Theorem exchanged_workbooks_swap_values (wb1 wb2 : Workbook) :
  sheetnames wb1 = sheetnames wb2 →
  bs_differences (compare_workbooks wb2 wb1)
  = swap_values <$> bs_differences (compare_workbooks wb1 wb2).
Proof.
  intros Hn. rewrite !compare_workbooks_diffs. unfold book_diffs.
  rewrite fmap_bind_list, <- Hn. apply list_bind_ext; [|done].
  intros name. by apply name_diffs_swap.
Qed.

Lemma exchanged_workbooks_swap_values_witness :
  bs_differences (compare_workbooks [far_sheet] [merged_visible_sheet])
  = swap_values <$> bs_differences (compare_workbooks [merged_visible_sheet] [far_sheet]).
Proof. apply (exchanged_workbooks_swap_values [merged_visible_sheet] [far_sheet]). reflexivity. Defined.

(** ** What the comparison does to the workbooks *)

Lemma extends_padded ws ws' : extends ws ws' → padded ws ws'.
Proof.
  intros (m & -> & H). repeat (split; [done|]). simpl. split.
  - intros r c x Hx. destruct (H r c) as [->|(E & _)]; [done|congruence].
  - intros r c x Hx. destruct (H r c) as [E|(_ & E & _)].
    + left. congruence.
    + right. congruence.
Qed.

(** X4.  [main] leaves the base workbook with the same sheets in the
    same order, each with its title, state, merged ranges and hidden
    flags; every cell that was stored keeps its value and type tag, and
    any cell that was added is an empty cell. *)
Theorem main_pads_base_workbook (stem1 : string) (wb1 : Workbook)
    (targets : list Target) :
  Forall2 padded wb1 (ms_workbook1 (main stem1 wb1 targets)).
Proof.
  unfold main.
  destruct (main_loop_inv stem1 wb1 targets (mkMainState wb1 [] []))
    as (H & _ & _); [apply books_extend_refl|].
  eapply Forall2_impl; [exact H|]. apply extends_padded.
Qed.


(** ** Sheets that are not compared *)

Lemma get_sheet_elem_of wb name i ws : get_sheet wb name = Some (i, ws) → ws ∈ wb.
Proof. intros H. eapply list_elem_of_lookup_2, get_sheet_lookup, H. Qed.

(** X6.  When every sheet of the base workbook is hidden or has a name
    the target lacks, no difference is found and no file is saved. *)
Theorem no_common_visible_sheet (stem1 : string) (wb1 : Workbook) (target : Target) :
  Forall (λ ws, title ws ∉ sheetnames (target_workbook target)
                ∨ is_worksheet_hidden ws = true) wb1 →
  bs_differences (compare_workbooks wb1 (target_workbook target)) = []
  ∧ ms_saved (main stem1 wb1 [target]) = [].
Proof.
  intros Hall. rewrite Forall_forall in Hall.
  assert (book_diffs wb1 (target_workbook target) = []) as Hnil.
  { unfold book_diffs. apply bind_all_nil. intros name _. unfold name_diffs.
    case_bool_decide as Hin; [done|].
    destruct (get_sheet wb1 name) as [[i1 ws1]|] eqn:E1; [|done].
    destruct (get_sheet (target_workbook target) name) as [[i2 ws2]|]; [|done].
    destruct (Hall ws1 (get_sheet_elem_of _ _ _ _ E1)) as [Hno| ->]; [|done].
    rewrite (get_sheet_title _ _ _ _ E1) in Hno. done. }
  split; [by rewrite compare_workbooks_diffs|].
  unfold main.
  destruct (main_loop_inv stem1 wb1 [target] (mkMainState wb1 [] []))
    as (_ & _ & ->); [apply books_extend_refl|].
  simpl. by rewrite compare_workbooks_diffs, Hnil.
Qed.

Lemma no_common_visible_sheet_witness :
  ms_saved (main "base" [sheet_of "Only" [((1, 1), text "a")]]
              [mkTarget "target" [sheet_of "Other" [((1, 1), text "b")]]]) = [].
Proof.
  apply (no_common_visible_sheet "base" [sheet_of "Only" [((1, 1), text "a")]]
           (mkTarget "target" [sheet_of "Other" [((1, 1), text "b")]])).
  constructor; [|constructor]. left. simpl. vm_compute.
  intros H. inversion H as [|? ? ? H']; subst; inversion H'.
Defined.

(** ** The cells the loops add *)

Lemma cell_keys ws r c k :
  is_Some (_cells (cell ws r c).2 !! k) ↔ is_Some (_cells ws !! k) ∨ k = (r, c).
Proof.
  unfold cell. destruct (_cells ws !! (r, c)) as [[v t]|] eqn:E; simpl.
  - split; [by left|]. intros [?| ->]; [done|]. by rewrite E.
  - destruct (decide (k = (r, c))) as [->|Hne].
    + rewrite lookup_insert_eq. split; [by right|done].
    + rewrite lookup_insert_ne by done. split; [by left|]. by intros [?|?].
Qed.

Lemma foldl_keys {A} (P : SheetState → Z * Z → Prop)
    (f : SheetState → A → SheetState) (keys : A → list (Z * Z)) :
  (∀ st a k, P (f st a) k ↔ P st k ∨ k ∈ keys a) →
  ∀ l st k, P (foldl f st l) k ↔ P st k ∨ k ∈ l ≫= keys.
Proof.
  intros Hstep l. induction l as [|a l IH]; intros st k; cbn [foldl].
  - split; [by left|]. by intros [?|?%not_elem_of_nil].
  - rewrite IH, Hstep, bind_cons, elem_of_app. tauto.
Qed.

Lemma elem_of_grid (rows cols : list Z) r c :
  (r, c) ∈ (r' ← rows; c' ← cols; [(r', c')]) ↔ r ∈ rows ∧ c ∈ cols.
Proof.
  rewrite list_elem_of_bind. split.
  - intros (r' & (c' & Hin & Hc)%list_elem_of_bind & Hr).
    by apply list_elem_of_singleton in Hin as [= -> ->].
  - intros [Hr Hc]. exists r. split; [|done].
    apply list_elem_of_bind. exists c. split; [|done]. by apply list_elem_of_singleton.
Qed.

Lemma compare_cell_ws1 r c st : st_ws1 (compare_cell r c st) = (cell (st_ws1 st) r c).2.
Proof. by rewrite compare_cell_step. Qed.

Lemma compare_cell_ws2 r c st : st_ws2 (compare_cell r c st) = (cell (st_ws2 st) r c).2.
Proof. by rewrite compare_cell_step. Qed.

Lemma compare_worksheets_keys (side : SheetState → Worksheet) st r c :
  (∀ r c st, side (compare_cell r c st) = (cell (side st) r c).2) →
  is_Some (_cells (side (compare_worksheets st)) !! (r, c))
  ↔ is_Some (_cells (side st) !! (r, c))
    ∨ (1 ≤ r ≤ Z.max (ws_max_row (st_ws1 st)) (ws_max_row (st_ws2 st))
       ∧ 1 ≤ c ≤ Z.max (ws_max_column (st_ws1 st)) (ws_max_column (st_ws2 st))).
Proof.
  intros Hside. unfold compare_worksheets.
  set (rows := seqZ 1 (Z.max (ws_max_row (st_ws1 st)) (ws_max_row (st_ws2 st)))).
  set (cols := seqZ 1 (Z.max (ws_max_column (st_ws1 st)) (ws_max_column (st_ws2 st)))).
  rewrite (foldl_keys (λ st k, is_Some (_cells (side st) !! k)) _
             (λ r, c ← cols; [(r, c)])).
  - rewrite elem_of_grid. unfold rows, cols. rewrite !elem_of_seqZ.
    split; (intros [?|?]; [by left|right; lia]).
  - intros st' r' k.
    rewrite (foldl_keys (λ st k, is_Some (_cells (side st) !! k)) _ (λ c, [(r', c)])).
    + done.
    + intros st'' c' k'. rewrite Hside, cell_keys.
      by rewrite list_elem_of_singleton.
Qed.

(** X7.  After the loops over a pair of sheets, the cells stored in each
    of the two sheets are the ones it had and one at every coordinate of
    the grid that was walked, and no other. *)
Theorem compare_worksheets_fills_grid (ws1 ws2 : Worksheet) (d : list Difference)
    (r c : Z) :
  let st' := compare_worksheets (mkSheetState ws1 ws2 d) in
  let in_grid :=
    1 ≤ r ≤ Z.max (ws_max_row ws1) (ws_max_row ws2)
    ∧ 1 ≤ c ≤ Z.max (ws_max_column ws1) (ws_max_column ws2) in
  (is_Some (_cells (st_ws1 st') !! (r, c)) ↔ is_Some (_cells ws1 !! (r, c)) ∨ in_grid)
  ∧ (is_Some (_cells (st_ws2 st') !! (r, c)) ↔ is_Some (_cells ws2 !! (r, c)) ∨ in_grid).
Proof.
  cbv zeta. split.
  - apply (compare_worksheets_keys st_ws1 (mkSheetState ws1 ws2 d)), compare_cell_ws1.
  - apply (compare_worksheets_keys st_ws2 (mkSheetState ws1 ws2 d)), compare_cell_ws2.
Qed.

Lemma ws_max_row_unique ws R :
  (∃ c, is_Some (_cells ws !! (R, c))) →
  (∀ r c, is_Some (_cells ws !! (r, c)) → r ≤ R) →
  ws_max_row ws = R.
Proof.
  intros (c & x & Hx) Hub. apply Z.le_antisymm.
  - destruct (ws_max_row_cases ws) as [[Hemp _]|(c' & x' & Hk)].
    + by rewrite Hemp, lookup_empty in Hx.
    + eapply Hub. by rewrite Hk.
  - by eapply ws_max_row_ge.
Qed.

Lemma ws_max_column_unique ws C :
  (∃ r, is_Some (_cells ws !! (r, C))) →
  (∀ r c, is_Some (_cells ws !! (r, c)) → c ≤ C) →
  ws_max_column ws = C.
Proof.
  intros (r & x & Hx) Hub. apply Z.le_antisymm.
  - destruct (ws_max_column_cases ws) as [[Hemp _]|(r' & x' & Hk)].
    + by rewrite Hemp, lookup_empty in Hx.
    + eapply Hub. by rewrite Hk.
  - by eapply ws_max_column_ge.
Qed.

Lemma keys_positive_bounds ws : keys_positive ws → 1 ≤ ws_max_row ws ∧ 1 ≤ ws_max_column ws.
Proof.
  intros Hpos. split.
  - destruct (ws_max_row_cases ws) as [[_ ->]|(c & x & Hk)]; [done|].
    by destruct (Hpos _ _ _ Hk).
  - destruct (ws_max_column_cases ws) as [[_ ->]|(r & x & Hk)]; [done|].
    by destruct (Hpos _ _ _ Hk).
Qed.

(** X8.  For sheets whose cells lie at rows and columns from 1 on, the
    loops leave both sheets with the bounds of the grid: [max_row] of
    either is the larger of the two [max_row] before, and likewise
    [max_column]. *)
Theorem compare_worksheets_equal_bounds (ws1 ws2 : Worksheet) (d : list Difference) :
  keys_positive ws1 → keys_positive ws2 →
  let st' := compare_worksheets (mkSheetState ws1 ws2 d) in
  let R := Z.max (ws_max_row ws1) (ws_max_row ws2) in
  let C := Z.max (ws_max_column ws1) (ws_max_column ws2) in
  ws_max_row (st_ws1 st') = R ∧ ws_max_row (st_ws2 st') = R
  ∧ ws_max_column (st_ws1 st') = C ∧ ws_max_column (st_ws2 st') = C.
Proof.
  intros Hp1 Hp2. cbv zeta.
  destruct (keys_positive_bounds _ Hp1), (keys_positive_bounds _ Hp2).
  pose proof (λ r c, compare_worksheets_keys st_ws1 (mkSheetState ws1 ws2 d) r c
    compare_cell_ws1) as K1.
  pose proof (λ r c, compare_worksheets_keys st_ws2 (mkSheetState ws1 ws2 d) r c
    compare_cell_ws2) as K2.
  simpl in K1, K2.
  repeat split.
  - apply ws_max_row_unique.
    + exists 1. apply K1. right. lia.
    + intros r c [[x Hx]|?]%K1; [|lia]. pose proof (ws_max_row_ge _ _ _ _ Hx). lia.
  - apply ws_max_row_unique.
    + exists 1. apply K2. right. lia.
    + intros r c [[x Hx]|?]%K2; [|lia]. pose proof (ws_max_row_ge _ _ _ _ Hx). lia.
  - apply ws_max_column_unique.
    + exists 1. apply K1. right. lia.
    + intros r c [[x Hx]|?]%K1; [|lia]. pose proof (ws_max_column_ge _ _ _ _ Hx). lia.
  - apply ws_max_column_unique.
    + exists 1. apply K2. right. lia.
    + intros r c [[x Hx]|?]%K2; [|lia]. pose proof (ws_max_column_ge _ _ _ _ Hx). lia.
Qed.

Lemma compare_worksheets_equal_bounds_witness :
  ws_max_row (st_ws1 (compare_worksheets (mkSheetState empty_text_sheet far_sheet []))) = 3
  ∧ ws_max_row (st_ws2 (compare_worksheets (mkSheetState empty_text_sheet far_sheet []))) = 3
  ∧ ws_max_column (st_ws1 (compare_worksheets (mkSheetState empty_text_sheet far_sheet []))) = 3
  ∧ ws_max_column (st_ws2 (compare_worksheets (mkSheetState empty_text_sheet far_sheet []))) = 3.
Proof.
  apply (compare_worksheets_equal_bounds empty_text_sheet far_sheet []).
  - intros r c x H. unfold empty_text_sheet in H. simpl in H.
    apply lookup_singleton_Some in H as [[= <- <-] _]. lia.
  - intros r c x H. unfold far_sheet, sheet_of in H. simpl in H.
    apply lookup_insert_Some in H as [[[= <- <-] _]|[_ H]]; [lia|].
    by rewrite lookup_empty in H.
Defined.

(** ** Hidden cells *)






(** The text that is compared depends on the cell alone. *)
Lemma compared_text_unmasked ws x :
  compared_text ws x
  = if bool_decide (data_type x ∈ masked_types) then "" else str (value x).
Proof. unfold compared_text, masked_types. by rewrite is_cell_hidden_false. Qed.

Lemma diff_at_cells ws1 ws2 ws1' ws2' r c :
  title ws1' = title ws1 → _cells ws1' = _cells ws1 → _cells ws2' = _cells ws2 →
  diff_at ws1' ws2' r c = diff_at ws1 ws2 r c.
Proof.
  intros Ht H1 H2. unfold diff_at, peek, content.
  by rewrite !compared_text_unmasked, Ht, H1, H2.
Qed.

(** X11.  The differences found for a pair of sheets depend only on the
    title of the first sheet and on the cells of the two sheets: sheets
    with other merged ranges and other hidden rows and columns, and the
    same cells, give the same list. *)
Theorem merged_and_hidden_flags_ignored (ws1 ws2 ws1' ws2' : Worksheet)
    (d : list Difference) :
  title ws1' = title ws1 → _cells ws1' = _cells ws1 → _cells ws2' = _cells ws2 →
  st_differences (compare_worksheets (mkSheetState ws1' ws2' d))
  = st_differences (compare_worksheets (mkSheetState ws1 ws2 d)).
Proof.
  intros Ht H1 H2. rewrite !compare_worksheets_diffs. f_equal.
  unfold sheet_diffs, ws_max_row, ws_max_column. rewrite H1, H2.
  unfold grid_diffs, row_diffs.
  apply list_bind_ext; [|done]. intros r.
  apply list_bind_ext; [|done]. intros c.
  by rewrite (diff_at_cells ws1 ws2 ws1' ws2' r c Ht H1 H2).
Qed.

Lemma merged_and_hidden_flags_ignored_witness :
  st_differences (compare_worksheets (mkSheetState merged_hidden_sheet far_sheet []))
  = st_differences (compare_worksheets (mkSheetState merged_visible_sheet far_sheet [])).
Proof.
  apply (merged_and_hidden_flags_ignored merged_visible_sheet far_sheet
           merged_hidden_sheet far_sheet []); reflexivity.
Defined.

(** X13.  Each value of a record the loop body appends is the empty
    string or the text of the value of a cell whose type tag is not
    blanked, and the two values differ: a coordinate is reported only if
    one of its two cells has such a tag and a text that is not empty. *)
Theorem reported_value_is_unmasked_text (r c : Z) (st : SheetState) (d : Difference) :
  st_differences (compare_cell r c st) = (st_differences st ++ [d])%list →
  let cell1 := (cell (st_ws1 st) r c).1 in
  let cell2 := (cell (st_ws2 st) r c).1 in
  (value1 d = ""
   ∨ ((data_type cell1 ∉ masked_types) ∧ value1 d = str (value cell1)))
  ∧ (value2 d = ""
     ∨ ((data_type cell2 ∉ masked_types) ∧ value2 d = str (value cell2)))
  ∧ value1 d ≠ value2 d.
Proof.
  rewrite compare_cell_step, !cell_peek. simpl. intros Hd%app_inv_head.
  destruct (diff_at (st_ws1 st) (st_ws2 st) r c) as [d'|] eqn:E; [|done].
  injection Hd as ->. apply diff_at_Some in E as [-> Hne]. simpl.
  split; [|split; [|done]]; rewrite compared_text_unmasked.
  - case_bool_decide as Ht; [by left|right]. by split; [exact Ht|].
  - case_bool_decide as Ht; [by left|right]. by split; [exact Ht|].
Qed.

Lemma reported_value_is_unmasked_text_witness :
  "X" ≠ "".
Proof.
  apply (reported_value_is_unmasked_text 1 1
           (mkSheetState merged_visible_sheet far_sheet [])
           (mkDifference "Sheet1" "A1" "X" "")).
  reflexivity.
Defined.

(** ** The extent of the written sheet *)

Lemma set_value_keys ws r c s k :
  is_Some (_cells (set_value ws r c s) !! k) ↔ is_Some (_cells ws !! k) ∨ k = (r, c).
Proof.
  unfold set_value. simpl. destruct (decide (k = (r, c))) as [->|Hne].
  - rewrite lookup_insert_eq. split; [by right|done].
  - rewrite lookup_insert_ne by done. split; [by left|]. by intros [?|?].
Qed.

Lemma write_difference_keys ws r d r' c' :
  is_Some (_cells (write_difference ws (r, d)) !! (r', c'))
  ↔ is_Some (_cells ws !! (r', c')) ∨ (r' = r ∧ 1 ≤ c' ≤ 4).
Proof.
  unfold write_difference. rewrite !set_value_keys. split.
  - intros H. repeat (destruct H as [H|H]); [by left|..];
      injection H as -> ->; right; lia.
  - intros [?|[-> Hc]]; [by do 4 left|].
    assert (c' = 1 ∨ c' = 2 ∨ c' = 3 ∨ c' = 4) as [-> | [-> | [-> | ->]]] by lia; tauto.
Qed.

Lemma write_differences_keys l : ∀ ws start r c,
  is_Some (_cells (foldl write_difference ws (enumerate l start)) !! (r, c))
  ↔ is_Some (_cells ws !! (r, c))
    ∨ (start ≤ r < start + Z.of_nat (length l) ∧ 1 ≤ c ≤ 4).
Proof.
  induction l as [|d l IH]; intros ws start r c.
  - simpl. split; [by left|]. intros [?|[? _]]; [done|lia].
  - rewrite enumerate_cons. cbn [foldl length]. rewrite IH, write_difference_keys.
    split; (intros [[?|?]|?] || intros [?|?]); try (by left; left); try (by left);
      try (left; right; lia); try (right; lia).
    destruct (decide (r = start)); [left; right; lia|right; lia].
Qed.

(** X14.  The sheet that is written for [n] differences holds a cell at
    the coordinates of rows 1 to n+1 and columns 1 to 4 and nowhere else,
    so its [max_row] is n+1 and its [max_column] is 4. *)
Theorem diff_worksheet_extent (stem1 stem2 : string) (differences : list Difference) :
  let ws := diff_worksheet stem1 stem2 differences in
  let n := Z.of_nat (length differences) in
  (∀ r c, is_Some (_cells ws !! (r, c)) ↔ 1 ≤ r ≤ n + 1 ∧ 1 ≤ c ≤ 4)
  ∧ ws_max_row ws = n + 1
  ∧ ws_max_column ws = 4.
Proof.
  cbv zeta.
  assert (∀ r c,
    is_Some (_cells (diff_worksheet stem1 stem2 differences) !! (r, c))
    ↔ 1 ≤ r ≤ Z.of_nat (length differences) + 1 ∧ 1 ≤ c ≤ 4) as Hkeys.
  { intros r c. unfold diff_worksheet. rewrite write_differences_keys, !set_value_keys.
    simpl. rewrite lookup_empty. split.
    - intros [H|?]; [|lia]. repeat (destruct H as [H|H]); [by destruct H|..];
        injection H as -> ->; lia.
    - intros [Hr Hc]. destruct (decide (r = 1)) as [->|Hne]; [left|right; lia].
      assert (c = 1 ∨ c = 2 ∨ c = 3 ∨ c = 4) as [-> | [-> | [-> | ->]]] by lia; tauto. }
  split; [exact Hkeys|]. split.
  - apply ws_max_row_unique.
    + exists 1. apply Hkeys. lia.
    + intros r c Hk%Hkeys. lia.
  - apply ws_max_column_unique.
    + exists 1. apply Hkeys. lia.
    + intros r c Hk%Hkeys. lia.
Qed.

(** ** Sheets the comparison leaves alone *)

Lemma compare_sheet_untouched wb1 wb2 name st :
  books_inv wb1 wb2 st →
  (∀ i ws, bs_wb1 st !! i = Some ws →
     is_worksheet_hidden ws = true ∨ title ws ∉ sheetnames wb2 →
     bs_wb1 (compare_sheet name st) !! i = Some ws)
  ∧ (∀ i ws, bs_wb2 st !! i = Some ws →
       is_worksheet_hidden ws = true →
       bs_wb2 (compare_sheet name st) !! i = Some ws).
Proof.
  intros [_ H2]. unfold compare_sheet.
  rewrite (books_extend_sheetnames _ _ H2).
  case_bool_decide as Hin; [done|].
  destruct (get_sheet (bs_wb1 st) name) as [[i1 ws1]|] eqn:E1; [|done].
  destruct (get_sheet (bs_wb2 st) name) as [[i2 ws2]|] eqn:E2; [|done].
  destruct (is_worksheet_hidden ws1) eqn:Hh1; [done|].
  destruct (is_worksheet_hidden ws2) eqn:Hh2; [done|].
  simpl. split; intros i ws Hi Hws.
  - rewrite list_lookup_insert_ne; [done|]. intros <-.
    rewrite (get_sheet_lookup _ _ _ _ E1) in Hi. injection Hi as <-.
    destruct Hws as [?|Hno]; [congruence|].
    by rewrite (get_sheet_title _ _ _ _ E1) in Hno.
  - rewrite list_lookup_insert_ne; [done|]. intros <-.
    rewrite (get_sheet_lookup _ _ _ _ E2) in Hi. injection Hi as <-. congruence.
Qed.

Lemma names_loop_untouched wb1 wb2 names : ∀ st,
  books_inv wb1 wb2 st →
  let st' := foldl (λ st sheetname, compare_sheet sheetname st) st names in
  (∀ i ws, bs_wb1 st !! i = Some ws →
     is_worksheet_hidden ws = true ∨ title ws ∉ sheetnames wb2 →
     bs_wb1 st' !! i = Some ws)
  ∧ (∀ i ws, bs_wb2 st !! i = Some ws →
       is_worksheet_hidden ws = true →
       bs_wb2 st' !! i = Some ws).
Proof.
  induction names as [|name names IH]; intros st Hst; [done|]. cbn [foldl].
  destruct (compare_sheet_inv wb1 wb2 name st Hst) as [Hst' _].
  destruct (compare_sheet_untouched wb1 wb2 name st Hst) as [U1 U2].
  destruct (IH _ Hst') as [V1 V2]. split.
  - intros i ws Hi Hws. by apply V1; [apply U1|].
  - intros i ws Hi Hws. by apply V2; [apply U2|].
Qed.

(** X15.  A comparison adds no cell to a sheet it skips: a sheet of the
    base workbook that is hidden or whose name the target lacks, and a
    hidden sheet of the target, are afterwards what they were. *)
Theorem skipped_sheets_untouched (wb1 wb2 : Workbook) (i : nat) (ws : Worksheet) :
  (wb1 !! i = Some ws →
   is_worksheet_hidden ws = true ∨ title ws ∉ sheetnames wb2 →
   bs_wb1 (compare_workbooks wb1 wb2) !! i = Some ws)
  ∧ (wb2 !! i = Some ws →
     is_worksheet_hidden ws = true →
     bs_wb2 (compare_workbooks wb1 wb2) !! i = Some ws).
Proof.
  unfold compare_workbooks.
  destruct (names_loop_untouched wb1 wb2 (sheetnames wb1) (mkBookState wb1 wb2 []))
    as [U1 U2]; [split; apply books_extend_refl|].
  split; [apply U1|apply U2].
Qed.

Lemma skipped_sheets_untouched_witness :
  bs_wb1 (compare_workbooks two_sheets_base two_sheets_target) !! 1%nat
  = Some (mkWorksheet "Sheet2" "hidden" {[(1, 1) := text "a"]} [] ∅ ∅).
Proof.
  apply (proj1 (skipped_sheets_untouched two_sheets_base two_sheets_target 1
                  (mkWorksheet "Sheet2" "hidden" {[(1, 1) := text "a"]} [] ∅ ∅)));
    [reflexivity|left; reflexivity].
Defined.
